(** * JobSphere: the job-application lifecycle

    A shallow embedding of the application lifecycle of the job board:
    - [backend/apps/jobs/models.py]       (the rows: [Job], [JobApplication]),
    - [backend/apps/jobs/serializers.py]  ([JobApplicationSerializer]),
    - [backend/apps/jobs/views.py]        (create, update, withdraw, counts),
    - [backend/apps/activity/views.py]    ([dashboard_summary]).

    Tables are lists of rows in insertion order, a request body is a JSON
    object read as a finite map from field names to values, timestamps are
    integers, and a view is a function from the database (and the clock) to
    a response and the database after the request.

    A text is a string of characters, and a character stands for its code
    point, which the type keeps below 256; the length of a text is the
    number of its characters. *)

From Stdlib Require Import ZArith Ascii Uint63 PrimFloat FloatOps SpecFloat Lia Reals Lra.
From stdpp Require Import base strings gmap list pretty sorting.

Local Open Scope Z_scope.

(** ** Python values *)

(** What a decoded JSON body holds under a key: a null, an integer or a
    text. *)
Inductive Value :=
| VNull
| VInt (n : Z)
| VStr (s : string).

(** [str(value)] *)
Definition str (value : Value) : string :=
  match value with
  | VNull => "None"
  | VInt n => pretty n
  | VStr s => s
  end.

(** [str.isspace] on a character below U+0100: TAB..CR, FS..US, SPACE,
    NEL (133) and the no-break space (160). *)
Definition py_isspace (c : ascii) : bool :=
  let n := Z.of_nat (nat_of_ascii c) in
  ((9 <=? n) && (n <=? 13)) || ((28 <=? n) && (n <=? 32)) ||
  (n =? 133) || (n =? 160).

Fixpoint lstrip (s : string) : string :=
  match s with
  | EmptyString => EmptyString
  | String c rest => if py_isspace c then lstrip rest else s
  end.

Fixpoint rstrip (s : string) : string :=
  match s with
  | EmptyString => EmptyString
  | String c rest =>
      match rstrip rest with
      | EmptyString => if py_isspace c then EmptyString else String c EmptyString
      | kept => String c kept
      end
  end.

(** [s.strip()] *)
Definition strip (s : string) : string := rstrip (lstrip s).

(** [len(s)] *)
Definition len (s : string) : Z := Z.of_nat (String.length s).

(** Truth value of a string: [if value]. *)
Definition truthy (s : string) : bool := negb (String.eqb s "").

(** The value of a decimal digit. *)
Definition digit (c : ascii) : option Z :=
  let n := Z.of_nat (nat_of_ascii c) in
  if (48 <=? n) && (n <=? 57) then Some (n - 48) else None.

(** The white space [int] skips around a number: the white space of C
    among the characters of ASCII, and that of Unicode above them. *)
Definition int_isspace (c : ascii) : bool :=
  let n := Z.of_nat (nat_of_ascii c) in
  ((9 <=? n) && (n <=? 13)) || (n =? 32) || (n =? 133) || (n =? 160).

Fixpoint int_spaces (s : string) : bool :=
  match s with
  | EmptyString => true
  | String c rest => int_isspace c && int_spaces rest
  end.

Fixpoint int_lstrip (s : string) : string :=
  match s with
  | EmptyString => EmptyString
  | String c rest => if int_isspace c then int_lstrip rest else s
  end.

(** The digits of a number, with single underscores between them, and the
    white space after the last digit; [seen] tells that the character
    before was a digit. *)
Fixpoint digits (s : string) (seen : bool) (acc : Z) : option Z :=
  match s with
  | EmptyString => if seen then Some acc else None
  | String c rest =>
      match digit c with
      | Some d => digits rest true (10 * acc + d)
      | None =>
          if Ascii.eqb c "_" && seen then digits rest false acc
          else if seen && int_spaces s then Some acc
          else None
      end
  end.

(** How many digits a text holds. *)
Fixpoint count_digits (s : string) : Z :=
  match s with
  | EmptyString => 0
  | String c rest =>
      match digit c with
      | Some _ => 1 + count_digits rest
      | None => count_digits rest
      end
  end.

(** [int(s)] on a text: white space, a sign, digits, white space. [None]
    is [ValueError]; a text of more than 4300 digits is refused. *)
Definition py_int (s : string) : option Z :=
  if 4300 <? count_digits s then None
  else
    match int_lstrip s with
    | String "+" rest => digits rest false 0
    | String "-" rest => Z.opp <$> digits rest false 0
    | body => digits body false 0
    end.

(** [s] is white space only, as [\s] of a regular expression has it. *)
Fixpoint spaces (s : string) : bool :=
  match s with
  | EmptyString => true
  | String c rest => py_isspace c && spaces rest
  end.

(** [s] is zeros, then white space. *)
Fixpoint zeros_then_spaces (s : string) : bool :=
  match s with
  | EmptyString => true
  | String c rest => if Ascii.eqb c "0" then zeros_then_spaces rest else spaces s
  end.

(** [re.compile(r'\.0*\s*$').sub('', s)]: the text is cut at the first
    point that only zeros and then white space follow. *)
Fixpoint re_decimal_sub (s : string) : string :=
  match s with
  | EmptyString => EmptyString
  | String c rest =>
      if Ascii.eqb c "." && zeros_then_spaces rest then EmptyString
      else String c (re_decimal_sub rest)
  end.

(** ** models.py *)

Module Job.
(** The columns of [jobs] the application lifecycle reads. [status] is a
    character column: [STATUS_CHOICES] constrains forms, not rows. *)
Record t := {
  pk : Z;
  title : string;
  posted_by : Z;
  status : string;
  application_deadline : option Z;   (* null=True *)
  view_count : Z;                    (* default=0 *)
  application_count : Z;             (* default=0 *)
  created_at : Z
}.

Definition STATUS_CHOICES : list string :=
  ["draft"; "active"; "paused"; "filled"; "expired"; "cancelled"].
End Job.

Module JobApplication.
Record t := {
  pk : Z;
  job_id : Z;
  applicant : Z;
  cover_letter : string;
  resume_file : string;
  portfolio_url : string;
  status : string;
  notes : string;
  last_contact_date : option Z;
  interview_scheduled_at : option Z;
  source : string;
  applied_at : Z;                    (* auto_now_add *)
  updated_at : Z                     (* auto_now *)
}.

Definition APPLICATION_STATUS : list string :=
  ["pending"; "reviewed"; "shortlisted"; "interview_scheduled";
   "interview_completed"; "offer_made"; "accepted"; "rejected"; "withdrawn"].

Definition SOURCE_CHOICES : list string :=
  ["website"; "mobile_app"; "external"; "referral"].

(** [application.status = s] on the instance. *)
Definition set_status (s : string) (a : t) : t :=
  {| pk := pk a; job_id := job_id a; applicant := applicant a;
     cover_letter := cover_letter a; resume_file := resume_file a;
     portfolio_url := portfolio_url a; status := s; notes := notes a;
     last_contact_date := last_contact_date a;
     interview_scheduled_at := interview_scheduled_at a;
     source := source a; applied_at := applied_at a;
     updated_at := updated_at a |}.
End JobApplication.

(** The two tables. *)
Record DB := {
  jobs : list Job.t;
  applications : list JobApplication.t
}.

(** [Job.objects.get(id=value)]: [None] stands for [Job.DoesNotExist]. *)
Definition Job_objects_get (db : DB) (id : Z) : option Job.t :=
  List.find (fun j => Job.pk j =? id) (jobs db).

(** [JobApplication.objects.filter(job_id=j, applicant=u).exists()] *)
Definition application_exists (db : DB) (j u : Z) : bool :=
  List.existsb
    (fun a => (JobApplication.job_id a =? j) && (JobApplication.applicant a =? u))
    (applications db).

(** The key of a new row of [job_applications]. The sequence of the table
    hands out a key above every key it handed out before; the tables being
    the whole state here, the new key is the first above the keys of the
    table, which is the key of the sequence as long as the row with the
    largest key was not deleted. The properties below use of it only that
    it is the key of no row. *)
Definition next_pk (db : DB) : Z :=
  1 + List.fold_right Z.max 0 (List.map JobApplication.pk (applications db)).

(** ** What a view answers *)

Inductive ErrorDetail :=
| FieldErrors (errors : list (string * list string))  (* {field: [messages]} *)
| NonFieldErrors (messages : list string).            (* [messages] *)

Inductive Response :=
| Http201 (message : string) (application : JobApplication.t)
| Http200 (message : string)
| Http200_application (message : string) (application : JobApplication.t)
| Http400 (error : string)            (* Response({'error': ...}, 400) *)
| Http403                             (* PermissionDenied *)
| Http404                             (* get_object_or_404 / get_object *)
| ValidationError (detail : ErrorDetail)   (* raised; answered as 400 *)
| Raised (exception : string).        (* an unhandled exception: 500 *)

(** ** The framework's fields

    Messages the framework itself produces are written by their error code
    ([required], [null], [invalid], [invalid_choice], [max_length],
    [max_string_length]); the messages of the serializer are the
    source's. *)

(** The URL validator of the framework, an external collaborator. *)
Class URLValidator := url_valid : string -> bool.

(** One field of the serializer on the incoming data: absent and not
    required (or a partial update) skips the field. *)
Definition run_validation {A} (required partial : bool) (v : option Value)
    (to_internal_value : Value -> list string + A) : list string + option A :=
  match v with
  | None => if required && negb partial then inl ["required"] else inr None
  | Some VNull => inl ["null"]
  | Some v =>
      match to_internal_value v with
      | inl e => inl e
      | inr a => inr (Some a)
      end
  end.

(** [IntegerField]: [int(re_decimal.sub('', str(data)))], so that a text
    that reads as an integer is taken as that integer, [3.0] included; a
    text of more than [MAX_STRING_LENGTH] characters is refused. *)
Definition IntegerField (v : Value) : list string + Z :=
  match v with
  | VInt n => inr n
  | VStr s =>
      if 1000 <? len s then inl ["max_string_length"]
      else
        match py_int (re_decimal_sub s) with
        | Some n => inr n
        | None => inl ["invalid"]
        end
  | VNull => inl ["invalid"]
  end.

(** [CharField(allow_blank=True)]: [str(data).strip()], so that a number
    is taken as its text. (A text is taken to hold no character the
    validators of the field prohibit.) *)
Definition CharField (v : Value) : list string + string :=
  inr (strip (str v)).

(** [URLField(allow_blank=True, max_length=200)]: a blank value skips the
    validators; otherwise the length validator, then the URL validator, and
    every failure is reported. *)
Definition URLField {V : URLValidator} (v : Value) : list string + string :=
  match CharField v with
  | inl e => inl e
  | inr s =>
      if String.eqb s "" then inr s
      else
        match (if 200 <? len s then ["max_length"] else []) ++
              (if url_valid s then [] else ["invalid"]) with
        | [] => inr s
        | errors => inl errors
        end
  end.

(** [ChoiceField(choices=...)]: [str(data)] is looked up among the
    choices. *)
Definition ChoiceField (choices : list string) (v : Value) : list string + string :=
  if bool_decide (str v ∈ choices) then inr (str v) else inl ["invalid_choice"].

(** [FileField(upload_to='resumes/')]: a value of a JSON body is no
    uploaded file. *)
Definition FileField (v : Value) : list string + string :=
  inl ["invalid"].

(** ** serializers.py: [JobApplicationSerializer] *)

(** [validated_data]: the writable fields of [Meta.fields], each present
    only when the request supplied it. *)
Record validated_data := {
  v_job_id : option Z;
  v_cover_letter : option string;
  v_resume_file : option string;
  v_portfolio_url : option string;
  v_status : option string;
  v_source : option string
}.

(** [validate_cover_letter] *)
Definition validate_cover_letter (value : string) : list string + string :=
  if truthy value && (len (strip value) <? 50)
  then inl ["Cover letter should be at least 50 characters long."]
  else inr (if truthy value then strip value else value).

(** [validate_job_id]: the job exists and is active. *)
Definition validate_job_id (db : DB) (now : Z) (value : Z) : list string + Z :=
  match Job_objects_get db value with
  | Some job =>
      if negb (String.eqb (Job.status job) "active")
      then inl ["Cannot apply to inactive jobs."]
      else
        match Job.application_deadline job with
        | Some deadline =>
            if deadline <=? now
            then inl ["Application deadline has passed."]
            else inr value
        | None => inr value
        end
  | None => inl ["Job does not exist."]
  end.

(** The [validate_<field>] hook runs on the value the field produced. *)
Definition with_hook {A} (r : list string + option A)
    (validate : A -> list string + A) : list string + option A :=
  match r with
  | inr (Some a) =>
      match validate a with
      | inl e => inl e
      | inr a' => inr (Some a')
      end
  | other => other
  end.

Definition field_errors {A} (name : string) (r : list string + option A)
    : list (string * list string) :=
  match r with
  | inl e => [(name, e)]
  | inr _ => []
  end.

Definition field_value {A} (r : list string + option A) : option A :=
  match r with
  | inr v => v
  | inl _ => None
  end.

(** [serializer.is_valid(raise_exception=True)]: every writable field is
    run in the order of [Meta.fields], the errors are gathered by field,
    and [inl errors] stands for the [ValidationError] raised. *)
Definition is_valid {V : URLValidator} (db : DB) (now : Z) (partial : bool)
    (data : gmap string Value) : list (string * list string) + validated_data :=
  let job_id :=
    with_hook (run_validation true partial (data !! "job_id") IntegerField)
              (validate_job_id db now) in
  let cover_letter :=
    with_hook (run_validation false partial (data !! "cover_letter") CharField)
              validate_cover_letter in
  let resume_file := run_validation false partial (data !! "resume_file") FileField in
  let portfolio_url := run_validation false partial (data !! "portfolio_url") URLField in
  let status :=
    run_validation false partial (data !! "status")
                   (ChoiceField JobApplication.APPLICATION_STATUS) in
  let source :=
    run_validation false partial (data !! "source")
                   (ChoiceField JobApplication.SOURCE_CHOICES) in
  match field_errors "job_id" job_id ++ field_errors "cover_letter" cover_letter ++
        field_errors "resume_file" resume_file ++
        field_errors "portfolio_url" portfolio_url ++
        field_errors "status" status ++ field_errors "source" source with
  | [] =>
      inr {| v_job_id := field_value job_id;
             v_cover_letter := field_value cover_letter;
             v_resume_file := field_value resume_file;
             v_portfolio_url := field_value portfolio_url;
             v_status := field_value status;
             v_source := field_value source |}
  | errors => inl errors
  end.

(** [JobApplication.objects.create] on the keywords of [validated_data],
    with [applicant] and [job] added by [serializer.save(applicant=..., job=job)]. The model's
    constructor assigns the relation [job] first and the remaining keyword
    [job_id] after it, so the row refers to [job_id]; absent keys take the
    defaults of the model, and both time stamps are set on insertion. *)
Definition objects_create (db : DB) (now : Z) (applicant : Z) (job : Job.t)
    (job_id : Z) (v : validated_data) : JobApplication.t :=
  {| JobApplication.pk := next_pk db;
     JobApplication.job_id := job_id;
     JobApplication.applicant := applicant;
     JobApplication.cover_letter := default "" (v_cover_letter v);
     JobApplication.resume_file := default "" (v_resume_file v);
     JobApplication.portfolio_url := default "" (v_portfolio_url v);
     JobApplication.status := default "pending" (v_status v);
     JobApplication.notes := "";
     JobApplication.last_contact_date := None;
     JobApplication.interview_scheduled_at := None;
     JobApplication.source := default "website" (v_source v);
     JobApplication.applied_at := now;
     JobApplication.updated_at := now |}.

(** [JobApplicationSerializer.create], reached through [serializer.save]:
    [inl] is what it raises. *)
Definition serializer_create (db : DB) (now : Z) (user : Z) (job : Job.t)
    (v : validated_data) : Response + JobApplication.t :=
  match v_job_id v with
  | None => inl (Raised "KeyError")
  | Some job_id =>
      if application_exists db job_id user
      then inl (ValidationError
                  (NonFieldErrors ["You have already applied to this job."]))
      else inr (objects_create db now user job job_id v)
  end.

(** [ModelSerializer.update]: every validated key is set on the instance,
    and [instance.save()] writes the row, refreshing [updated_at]. *)
Definition serializer_update (now : Z) (instance : JobApplication.t)
    (v : validated_data) : JobApplication.t :=
  {| JobApplication.pk := JobApplication.pk instance;
     JobApplication.job_id := default (JobApplication.job_id instance) (v_job_id v);
     JobApplication.applicant := JobApplication.applicant instance;
     JobApplication.cover_letter :=
       default (JobApplication.cover_letter instance) (v_cover_letter v);
     JobApplication.resume_file :=
       default (JobApplication.resume_file instance) (v_resume_file v);
     JobApplication.portfolio_url :=
       default (JobApplication.portfolio_url instance) (v_portfolio_url v);
     JobApplication.status := default (JobApplication.status instance) (v_status v);
     JobApplication.notes := JobApplication.notes instance;
     JobApplication.last_contact_date := JobApplication.last_contact_date instance;
     JobApplication.interview_scheduled_at :=
       JobApplication.interview_scheduled_at instance;
     JobApplication.source := default (JobApplication.source instance) (v_source v);
     JobApplication.applied_at := JobApplication.applied_at instance;
     JobApplication.updated_at := now |}.

(** ** views.py *)

(** The key a lookup [id=value] compares with, for the value of
    [request.data.get(...)]: the column prepares the value with
    [int(value)]. [inl] is the exception that raises for a text that does
    not read as an integer; an absent key and a null give [None], and the
    lookup is then for a key that is null. *)
Definition get_prep_value (value : option Value) : string + option Z :=
  match value with
  | None | Some VNull => inr None
  | Some (VInt n) => inr (Some n)
  | Some (VStr s) =>
      match py_int s with
      | Some n => inr (Some n)
      | None => inl "ValueError"
      end
  end.

(** [get_object_or_404(Job, id=job_id)] on [request.data.get('job')], for
    a value the lookup can be prepared from: [None] is [Http404]. The
    function of [django.shortcuts] turns [Job.DoesNotExist] into
    [Http404] and lets every other exception pass. *)
Definition get_job_or_404 (db : DB) (job_id : option Value) : option Job.t :=
  match get_prep_value job_id with
  | inr (Some id) => Job_objects_get db id
  | _ => None
  end.

Definition insert_application (db : DB) (a : JobApplication.t) : DB :=
  {| jobs := jobs db; applications := applications db ++ [a] |}.

(** The row with the key of [a] is written with the columns of [a]. *)
Definition save_application (db : DB) (a : JobApplication.t) : DB :=
  {| jobs := jobs db;
     applications :=
       List.map (fun row =>
                   if JobApplication.pk row =? JobApplication.pk a then a else row)
                (applications db) |}.

(** [JobApplicationListCreateView.create] *)
Definition create {V : URLValidator} (db : DB) (now : Z) (user : Z)
    (data : gmap string Value) : Response * DB :=
  match is_valid db now false data with
  | inl errors => (ValidationError (FieldErrors errors), db)
  | inr validated =>
      match get_prep_value (data !! "job") with
      | inl exception => (Raised exception, db)
      | inr _ =>
          match get_job_or_404 db (data !! "job") with
          | None => (Http404, db)
          | Some job =>
              if Job.posted_by job =? user
              then (Http400 "You cannot apply to your own job", db)
              else if negb (String.eqb (Job.status job) "published")
              then (Http400 "This job is not accepting applications", db)
              else
                match Job.application_deadline job with
                | None => (Raised "TypeError", db)   (* None <= timezone.now() *)
                | Some deadline =>
                    if deadline <=? now
                    then (Http400 "Application deadline has passed", db)
                    else if application_exists db (Job.pk job) user
                    then (Http400 "You have already applied to this job", db)
                    else
                      match serializer_create db now user job validated with
                      | inl raised => (raised, db)
                      | inr application =>
                          (Http201 "Application submitted successfully"
                                   application,
                           insert_application db application)
                      end
                end
          end
      end
  end.

(** [get_object()] over [get_queryset()] of the detail view, and
    [get_object_or_404(JobApplication, id=..., applicant=request.user)]:
    the row with that key among the applications of the user. *)
Definition get_application (db : DB) (user : Z) (id : Z) : option JobApplication.t :=
  List.find
    (fun a => (JobApplication.pk a =? id) && (JobApplication.applicant a =? user))
    (applications db).

Definition allowed_fields : list string := ["cover_letter"; "portfolio_url"].

(** [JobApplicationDetailView.update]; [partial] is true for PATCH. *)
Definition update {V : URLValidator} (db : DB) (now : Z) (user : Z) (pk : Z)
    (partial : bool) (request_data : gmap string Value) : Response * DB :=
  match get_application db user pk with
  | None => (Http404, db)
  | Some instance =>
      let data := filter (fun kv => kv.1 ∈ allowed_fields) request_data in
      match is_valid db now partial data with
      | inl errors => (ValidationError (FieldErrors errors), db)
      | inr validated =>
          let application := serializer_update now instance validated in
          (Http200_application "Application updated successfully" application,
           save_application db application)
      end
  end.

(** [withdraw_application]; [save(update_fields=['status'])] writes the
    status column of the row and nothing else. *)
Definition withdraw_application (db : DB) (user : Z) (application_id : Z)
    : Response * DB :=
  match get_application db user application_id with
  | None => (Http404, db)
  | Some application =>
      if bool_decide (JobApplication.status application ∈ ["accepted"; "rejected"])
      then (Http400 "Cannot withdraw application with current status", db)
      else
        (Http200 "Application withdrawn successfully",
         {| jobs := jobs db;
            applications :=
              List.map (fun row =>
                          if JobApplication.pk row =? JobApplication.pk application
                          then JobApplication.set_status "withdrawn" row
                          else row)
                       (applications db) |})
  end.

(** The names of the fields of [Job], as [Job._meta.get_fields()] gives
    them, with the attribute names of the foreign keys: the relations
    that point at a job, then the columns. *)
Definition Job_field_names : list string :=
  ["applications"; "job_views"; "saved_by_users";
   "id"; "title"; "company"; "description"; "requirements"; "benefits";
   "job_type"; "experience_level"; "category"; "skills_required";
   "salary_min"; "salary_max"; "salary_currency"; "salary_type";
   "location"; "location_id"; "is_remote"; "remote_type";
   "posted_by"; "posted_by_id"; "status";
   "application_deadline"; "max_applications"; "application_email";
   "application_url"; "slug"; "meta_description"; "search_vector";
   "view_count"; "application_count"; "created_at"; "updated_at";
   "published_at"].

(** One keyword [alias=Count(relation)] of [QuerySet.annotate] on the
    jobs: an alias that is the name of a field of the model raises
    [ValueError], and a relation the model has not raises [FieldError].
    [annotate] checks when it is called, before any row is read. *)
Definition annotate_raises (alias relation : string) : option string :=
  if bool_decide (alias ∈ Job_field_names) then Some "ValueError"
  else if bool_decide (relation ∈ Job_field_names) then None
  else Some "FieldError".

(** [annotate(application_count=Count('applications'),
    view_count=Count('views'))], keyword by keyword. *)
Definition annotate_counts_raises : option string :=
  match annotate_raises "application_count" "applications" with
  | Some exception => Some exception
  | None => annotate_raises "view_count" "views"
  end.

(** [Count('applications')] for a job: the rows of [job_applications]
    that refer to it. *)
Definition Count_applications (db : DB) (job : Job.t) : nat :=
  length (List.filter (fun a => JobApplication.job_id a =? Job.pk job)
                      (applications db)).

(** A row of an annotated query set. *)
Definition annotate (db : DB) (job : Job.t) : Job.t * nat :=
  (job, Count_applications db job).

Fixpoint insert_by_created_at (j : Job.t * nat) (l : list (Job.t * nat))
    : list (Job.t * nat) :=
  match l with
  | [] => [j]
  | x :: rest =>
      if Job.created_at x.1 <? Job.created_at j.1
      then j :: l
      else x :: insert_by_created_at j rest
  end.

(** [order_by('-created_at')] *)
Definition order_by_created_at_desc (l : list (Job.t * nat)) : list (Job.t * nat) :=
  List.fold_right insert_by_created_at [] l.

(** [my_jobs]: the jobs of the user, annotated and ordered; [inl] is the
    exception the view raises. *)
Definition my_jobs (db : DB) (user : Z) : string + list (Job.t * nat) :=
  match annotate_counts_raises with
  | Some exception => inl exception
  | None =>
      inr (order_by_created_at_desc
             (List.map (annotate db)
                       (List.filter (fun j => Job.posted_by j =? user) (jobs db))))
  end.

(** [JobListCreateView.get_queryset] before the search and salary filters
    of the request, which come after the annotation. A null deadline does
    not satisfy [application_deadline__gt]. *)
Definition get_queryset (db : DB) (now : Z) : string + list (Job.t * nat) :=
  match annotate_counts_raises with
  | Some exception => inl exception
  | None =>
      inr (List.map (annotate db)
             (List.filter
                (fun j => String.eqb (Job.status j) "published" &&
                          match Job.application_deadline j with
                          | Some deadline => now <? deadline
                          | None => false
                          end)
                (jobs db)))
  end.


(** ** activity: [dashboard_summary] *)

(** The integer nearest to [num / den] ([0 < den]), ties to even. *)
Definition round_half_even (num den : Z) : Z :=
  let q := num / den in
  let r := num mod den in
  if 2 * r <? den then q
  else if den <? 2 * r then q + 1
  else if Z.even q then q else q + 1.

(** A [float] that is finite and not subnormal, as the pair [(m, e)] of
    the number [m * 2^e]: zero is [(0, 0)], and every other number has
    [2^52 <= |m| < 2^53]. The counters of a dashboard are below [2^31],
    and what is computed from them stays far from the largest and the
    smallest floats; the sign of a zero is not kept. *)
Definition binary64 : Type := Z * Z.

(** [x] as a fraction [(num, den)] of integers, [0 < den]. *)
Definition fraction (x : binary64) : Z * Z :=
  if 0 <=? x.2 then (x.1 * 2 ^ x.2, 1) else (x.1, 2 ^ (- x.2)).

(** The exponent [k] with [2^k <= num / den < 2^(k+1)], for [0 < num] and
    [0 < den]. *)
Definition floor_log2 (num den : Z) : Z :=
  let k := Z.log2 num - Z.log2 den in
  if num * 2 ^ Z.max 0 (- k) <? den * 2 ^ Z.max 0 k then k - 1 else k.

(** The [float] nearest to [num / den] ([0 < den]), ties to even: the
    quotient is scaled into [2^52 .. 2^53] and rounded to an integer. *)
Definition nearest_binary64 (num den : Z) : binary64 :=
  if num =? 0 then (0, 0)
  else
    let e := floor_log2 (Z.abs num) den - 52 in
    let m := round_half_even (Z.abs num * 2 ^ Z.max 0 (- e)) (den * 2 ^ Z.max 0 e) in
    if m =? 2 ^ 53 then (Z.sgn num * 2 ^ 52, e + 1) else (Z.sgn num * m, e).

(** [float(n)] *)
Definition float_of_Z (n : Z) : binary64 := nearest_binary64 n 1.

(** [a / b] on two integers, [0 < b]: the quotient, correctly rounded. *)
Definition py_truediv (a : Z) (b : positive) : binary64 :=
  nearest_binary64 a (Z.pos b).

(** [x * y] on two floats: the product, correctly rounded. *)
Definition float_mul (x y : binary64) : binary64 :=
  nearest_binary64 ((fraction x).1 * (fraction y).1)
                   ((fraction x).2 * (fraction y).2).

(** The decimal [round(x, ndigits)] keeps, in units of [10^-ndigits]:
    the exact binary value of [x], rounded half to even. *)
Definition decimal_units (x : binary64) (ndigits : Z) : Z :=
  round_half_even (10 ^ ndigits * (fraction x).1) (fraction x).2.

(** [round(x, ndigits)] on a float, [0 <= ndigits]: the float nearest to
    that decimal. *)
Definition float_round (x : binary64) (ndigits : Z) : binary64 :=
  nearest_binary64 (decimal_units x ndigits) (10 ^ ndigits).

(** A Python number: [0] is an [int], a quotient is a [float]. *)
Inductive PyNum :=
| PyInt (n : Z)
| PyFloat (x : binary64).

(** [round(number, ndigits)]: an [int] is returned as it is. *)
Definition py_round (number : PyNum) (ndigits : Z) : PyNum :=
  match number with
  | PyInt n => PyInt n
  | PyFloat x => PyFloat (float_round x ndigits)
  end.

(** The number a float stands for. *)
Definition float_value (x : binary64) : R := (IZR x.1 * powerRZ 2 x.2)%R.

(** [x] as a float of the machine. *)
Definition to_float (x : binary64) : float :=
  SF2Prim match x.1 with
          | Z0 => S754_zero false
          | Z.pos m => S754_finite false m x.2
          | Z.neg m => S754_finite true m x.2
          end.

(** [a / t * 100] as the machine computes it, and whether that is the
    float the definitions above give. *)
Definition machine_rate (a t : Z) : float :=
  PrimFloat.mul (PrimFloat.div (PrimFloat.of_uint63 (Uint63.of_Z a))
                               (PrimFloat.of_uint63 (Uint63.of_Z t)))
                100%float.

Definition agrees_with_machine (a : Z) (t : positive) : bool :=
  match SFcompare (Prim2SF (machine_rate a (Z.pos t)))
                  (Prim2SF (to_float (float_mul (py_truediv a t) (float_of_Z 100)))) with
  | Some Eq => true
  | _ => false
  end.

(** The counters of [Dashboard] ([PositiveIntegerField]: from 0 to
    [2^31 - 1]). *)
Record Dashboard := {
  total_applications : Z;
  active_applications : Z;
  jobs_posted : Z;
  profile_views : Z;
  pending_applications : Z;
  reviewed_applications : Z;
  interview_applications : Z;
  accepted_applications : Z;
  rejected_applications : Z;
  active_job_posts : Z;
  total_job_applications_received : Z;
  jobs_filled : Z
}.

Record job_seeker_stats := {
  js_total_applications : Z;
  js_active_applications : Z;
  success_rate : PyNum;
  response_rate : PyNum;
  js_pending_applications : Z;
  interviews_scheduled : Z
}.

(** [dashboard_summary], the statistics of the job seeker; the rates are
    computed [if total_apps > 0]. *)
Definition dashboard_summary (dashboard : Dashboard) : job_seeker_stats :=
  let total_apps := total_applications dashboard in
  let success_rate :=
    match total_apps with
    | Z.pos total =>
        PyFloat (float_mul (py_truediv (accepted_applications dashboard) total)
                           (float_of_Z 100))
    | _ => PyInt 0
    end in
  let response_rate :=
    match total_apps with
    | Z.pos total =>
        let responded :=
          reviewed_applications dashboard + interview_applications dashboard +
          accepted_applications dashboard + rejected_applications dashboard in
        PyFloat (float_mul (py_truediv responded total) (float_of_Z 100))
    | _ => PyInt 0
    end in
  {| js_total_applications := total_apps;
     js_active_applications := active_applications dashboard;
     success_rate := py_round success_rate 1;
     response_rate := py_round response_rate 1;
     js_pending_applications := pending_applications dashboard;
     interviews_scheduled := interview_applications dashboard |}.

(** ** The words of the specification, for comparison *)

(** The error taxonomy of the specification. *)
Inductive SpecError :=
| NotFound
| Forbidden
| Rejected (reason : string)
| Conflict
| InvalidInput.

Inductive Outcome :=
| Success
| Failure (e : SpecError)
| ServerError.

(** How the answers of the views read in that taxonomy. *)
Definition classify (r : Response) : Outcome :=
  match r with
  | Http201 _ _ | Http200 _ | Http200_application _ _ => Success
  | Http404 => Failure NotFound
  | Http403 => Failure Forbidden
  | ValidationError _ => Failure InvalidInput
  | Raised _ => ServerError
  | Http400 error =>
      if String.eqb error "You cannot apply to your own job"
      then Failure (Rejected "cannot apply to own job")
      else if String.eqb error "This job is not accepting applications"
      then Failure (Rejected "not accepting applications")
      else if String.eqb error "Application deadline has passed"
      then Failure (Rejected "deadline passed")
      else if String.eqb error "You have already applied to this job"
      then Failure (Rejected "already applied")
      else if String.eqb error "Cannot withdraw application with current status"
      then Failure Conflict
      else Failure InvalidInput
  end.


(** The statuses the specification lets an applicant withdraw from. *)
Definition spec_withdrawable : list string :=
  ["pending"; "reviewed"; "shortlisted"; "interview_scheduled";
   "interview_completed"; "offer_made"].


(** ** Invariants of the tables *)

(** The pair an application is unique by. *)
Definition key (a : JobApplication.t) : Z * Z :=
  (JobApplication.job_id a, JobApplication.applicant a).

(** [unique_together = [['job', 'applicant']]] *)
Definition unique_together (db : DB) : Prop :=
  NoDup (List.map key (applications db)).

(** The primary key of [job_applications]. *)
Definition primary_key (db : DB) : Prop :=
  NoDup (List.map JobApplication.pk (applications db)).

(** What an update of an application leaves alone: every column but the
    cover letter, the portfolio link and the [auto_now] time stamp. *)
Definition frame (row row' : JobApplication.t) : Prop :=
  JobApplication.pk row' = JobApplication.pk row /\
  JobApplication.job_id row' = JobApplication.job_id row /\
  JobApplication.applicant row' = JobApplication.applicant row /\
  JobApplication.resume_file row' = JobApplication.resume_file row /\
  JobApplication.status row' = JobApplication.status row /\
  JobApplication.notes row' = JobApplication.notes row /\
  JobApplication.last_contact_date row' = JobApplication.last_contact_date row /\
  JobApplication.interview_scheduled_at row' =
    JobApplication.interview_scheduled_at row /\
  JobApplication.source row' = JobApplication.source row /\
  JobApplication.applied_at row' = JobApplication.applied_at row.

(** The checks of [create] after the validation of the fields, in their
    order, each with the answer [r] it gives when it is the first to
    fail; [final job] is the answer when the job passes them all. *)
Definition view_checks (db : DB) (now user : Z) (data : gmap string Value)
    (r : Response) (final : Job.t -> Response) : Prop :=
  (forall exception,
      get_prep_value (data !! "job") = inl exception -> r = Raised exception) /\
  (forall key, get_prep_value (data !! "job") = inr key ->
     (get_job_or_404 db (data !! "job") = None -> r = Http404) /\
     (forall job, get_job_or_404 db (data !! "job") = Some job ->
        (Job.posted_by job = user ->
         r = Http400 "You cannot apply to your own job") /\
        (Job.posted_by job <> user ->
           (Job.status job <> "published" ->
            r = Http400 "This job is not accepting applications") /\
           (Job.status job = "published" ->
              (Job.application_deadline job = None -> r = Raised "TypeError") /\
              (forall deadline, Job.application_deadline job = Some deadline ->
                 (deadline <= now ->
                  r = Http400 "Application deadline has passed") /\
                 (now < deadline ->
                    (application_exists db (Job.pk job) user = true ->
                     r = Http400 "You have already applied to this job") /\
                    (application_exists db (Job.pk job) user = false ->
                     r = final job))))))).

(** ** Rows and requests of the scenarios *)

(** A validator that accepts the links over https. *)
Definition https_only : URLValidator := fun s => String.prefix "https://" s.

Definition job_row (pk poster : Z) (status : string) (deadline : option Z) : Job.t :=
  {| Job.pk := pk; Job.title := "Backend engineer"; Job.posted_by := poster;
     Job.status := status; Job.application_deadline := deadline;
     Job.view_count := 0; Job.application_count := 0; Job.created_at := 0 |}.

Definition application_row (pk job applicant : Z) (status : string)
    : JobApplication.t :=
  {| JobApplication.pk := pk; JobApplication.job_id := job;
     JobApplication.applicant := applicant;
     JobApplication.cover_letter := ""; JobApplication.resume_file := "";
     JobApplication.portfolio_url := ""; JobApplication.status := status;
     JobApplication.notes := ""; JobApplication.last_contact_date := None;
     JobApplication.interview_scheduled_at := None;
     JobApplication.source := "website"; JobApplication.applied_at := 1000;
     JobApplication.updated_at := 1000 |}.

(** Sixty characters. *)
Definition letter60 : string :=
  "I am writing to apply for this position with great interest.".

(** The body of an application request: the view reads [job], the
    serializer reads [job_id]. *)
Definition request (job job_id : Z) (letter : string) : gmap string Value :=
  <["job" := VInt job]> (<["job_id" := VInt job_id]> {["cover_letter" := VStr letter]}).

(** One day, in seconds. *)
Definition day : Z := 86400.

(** The clock of the scenarios. *)
Definition t0 : Z := 1000.

(** Job 1, posted by user 10, active, closing in a day; nobody applied. *)
Definition db_open : DB :=
  {| jobs := [job_row 1 10 "active" (Some (t0 + day))]; applications := [] |}.

(** Job 1 is active and job 2 is listed as published, both posted by user
    10 and both without a deadline. *)
Definition db_no_deadline : DB :=
  {| jobs := [job_row 1 10 "active" None; job_row 2 10 "published" None];
     applications := [] |}.


(** User 20 has a pending application (key 1) for the active job 1. *)
Definition db_applied : DB :=
  {| jobs := [job_row 1 10 "active" (Some (t0 + day))];
     applications := [application_row 1 1 20 "pending"] |}.

(** Job 1 is active, job 3 is listed as published and open for a day, and
    user 20 has a pending application (key 1) for job 3. *)
Definition db_listed : DB :=
  {| jobs := [job_row 1 10 "active" (Some (t0 + day));
              job_row 3 10 "published" (Some (t0 + day))];
     applications := [application_row 1 3 20 "pending"] |}.

(** User 20 has withdrawn the application (key 1) for job 1. *)
Definition db_withdrawn : DB :=
  {| jobs := [job_row 1 10 "active" (Some (t0 + day))];
     applications := [application_row 1 1 20 "withdrawn"] |}.

(** User 20 has one pending and user 21 one withdrawn application for
    job 1 of user 10. *)
Definition db_counted : DB :=
  {| jobs := [job_row 1 10 "active" (Some (t0 + day))];
     applications := [application_row 1 1 20 "pending";
                      application_row 2 1 21 "withdrawn"] |}.

(** Job 1 is active, job 3 is listed as published and open for a day, and
    user 20 has a pending application (key 1) for job 1. *)
Definition db_applied_listed : DB :=
  {| jobs := [job_row 1 10 "active" (Some (t0 + day));
              job_row 3 10 "published" (Some (t0 + day))];
     applications := [application_row 1 1 20 "pending"] |}.

(** Job 1 is active and posted by user 10; job 3 is listed as published,
    open for a day and posted by user 11; nobody applied. *)
Definition db_two_posters : DB :=
  {| jobs := [job_row 1 10 "active" (Some (t0 + day));
              job_row 3 11 "published" (Some (t0 + day))];
     applications := [] |}.

(** Job 1 as the scenarios above hold it. *)
Definition job_open : Job.t := job_row 1 10 "active" (Some (t0 + day)).

(** ** More invariants of the tables *)

(** The foreign key [job] of [job_applications]. *)
Definition foreign_key (db : DB) : Prop :=
  Forall (fun a => is_Some (Job_objects_get db (JobApplication.job_id a)))
         (applications db).

(** The status of every application is one of [APPLICATION_STATUS]. *)
Definition valid_statuses (db : DB) : Prop :=
  Forall (fun a => JobApplication.status a ∈ JobApplication.APPLICATION_STATUS)
         (applications db).

(** Every cover letter is stored trimmed, and is empty or of fifty
    characters at least. *)
Definition cover_letters_checked (db : DB) : Prop :=
  Forall (fun a =>
            strip (JobApplication.cover_letter a) = JobApplication.cover_letter a /\
            (JobApplication.cover_letter a = "" \/
             50 <= len (JobApplication.cover_letter a)))
         (applications db).

Definition well_formed (db : DB) : Prop :=
  primary_key db /\ unique_together db /\ foreign_key db /\
  valid_statuses db /\ cover_letters_checked db.

(** User 21 asks for job 1 under [job_id] and for job 3 under [job], and
    names the status of the application. *)
Definition request_accepted : gmap string Value :=
  <["status" := VStr "accepted"]> (request 3 1 letter60).

(** ** models.py: [Job.is_expired] *)

(** The property [is_expired], read at the clock [now]. *)
Definition is_expired (job : Job.t) (now : Z) : bool :=
  match Job.application_deadline job with
  | Some deadline => deadline <? now
  | None => false
  end.

(** ** serializers.py: [JobSerializer] *)

(** [validate_title] *)
Definition validate_title (value : string) : list string + string :=
  if len (strip value) <? 5
  then inl ["Job title must be at least 5 characters long."]
  else inr (strip value).

(** [validate_description] *)
Definition validate_description (value : string) : list string + string :=
  if len (strip value) <? 100
  then inl ["Job description must be at least 100 characters long."]
  else inr (strip value).

(** A salary is a decimal of two places, held in hundredths; [None] is
    Python's [None]. *)
Definition validate_salary_min (value : option Z) : list string + option Z :=
  match value with
  | Some amount =>
      if amount <? 0 then inl ["Minimum salary cannot be negative."] else inr value
  | None => inr value
  end.

Definition validate_salary_max (value : option Z) : list string + option Z :=
  match value with
  | Some amount =>
      if amount <? 0 then inl ["Maximum salary cannot be negative."] else inr value
  | None => inr value
  end.

(** The keys of the data [JobSerializer.validate] reads; [None] is a key
    that is absent or null. *)
Record job_data := {
  d_salary_min : option Z;
  d_salary_max : option Z;
  d_application_deadline : option Z
}.

(** Truth value of an optional decimal: [None] and zero are false. *)
Definition decimal_truthy (value : option Z) : bool :=
  match value with
  | Some amount => negb (amount =? 0)
  | None => false
  end.

(** [JobSerializer.validate], the validation across fields. *)
Definition validate (now : Z) (data : job_data) : list string + job_data :=
  if decimal_truthy (d_salary_min data) && decimal_truthy (d_salary_max data) &&
     match d_salary_min data, d_salary_max data with
     | Some salary_min, Some salary_max => salary_max <? salary_min
     | _, _ => false
     end
  then inl ["Minimum salary cannot be greater than maximum salary."]
  else
    match d_application_deadline data with
    | Some deadline =>
        if deadline <=? now
        then inl ["Application deadline must be in the future."]
        else inr data
    | None => inr data
    end.

(** The loop of [JobSerializer.create] that looks for a free slug, over
    the column [slug] of the jobs: [slug] is tried, then [base_slug-1],
    [base_slug-2], ... The rounds are counted down by [fuel], and [None]
    is a loop still running when the fuel is spent. *)
Fixpoint slug_loop (fuel : nat) (slugs : list string) (base_slug : string)
    (counter : N) (slug : string) : option string :=
  match fuel with
  | O => None
  | S fuel' =>
      if bool_decide (slug ∈ slugs)
      then slug_loop fuel' slugs base_slug (counter + 1)
                     (base_slug +:+ "-" +:+ pretty counter)
      else Some slug
  end.

(** The slug tried in round [k]: the base, then the base with a number. *)
Definition slug_candidate (base_slug : string) (k : nat) : string :=
  match k with
  | O => base_slug
  | S _ => base_slug +:+ "-" +:+ pretty (N.of_nat k)
  end.

(** One round more than there are jobs. *)
Definition unique_slug (slugs : list string) (base_slug : string) : option string :=
  slug_loop (S (length slugs)) slugs base_slug 1 base_slug.

(** ** serializers.py: how long ago

    Here a time stamp counts microseconds, the resolution of a
    [datetime], and a difference of two is a [timedelta]. *)

(** [timedelta.days] *)
Definition timedelta_days (time_diff : Z) : Z := time_diff / 86400000000.

(** [timedelta.seconds] *)
Definition timedelta_seconds (time_diff : Z) : Z :=
  (time_diff mod 86400000000) / 1000000.

(** ['s' if n > 1 else ''] *)
Definition plural (n : Z) : string := if 1 <? n then "s" else "".

(** [JobApplicationSerializer.get_time_since_applied] *)
Definition get_time_since_applied (now applied_at : Z) : string :=
  let time_diff := now - applied_at in
  let days := timedelta_days time_diff in
  if days =? 0 then
    let hours := timedelta_seconds time_diff / 3600 in
    if hours =? 0 then "Just now" else pretty hours +:+ "h ago"
  else if days =? 1 then "Yesterday"
  else if days <? 7 then pretty days +:+ " days ago"
  else
    let weeks := days / 7 in
    pretty weeks +:+ " week" +:+ plural weeks +:+ " ago".

(** [JobSerializer.get_time_since_posted]; [None] is a job that was never
    published, and the answer [None]. *)
Definition get_time_since_posted (now : Z) (published_at : option Z) : option string :=
  match published_at with
  | Some published =>
      let time_diff := now - published in
      let days := timedelta_days time_diff in
      Some
        (if days =? 0 then
           let hours := timedelta_seconds time_diff / 3600 in
           if hours =? 0 then
             let minutes := timedelta_seconds time_diff / 60 in
             pretty minutes +:+ "m ago"
           else pretty hours +:+ "h ago"
         else if days =? 1 then "1 day ago"
         else if days <? 7 then pretty days +:+ " days ago"
         else if days <? 30 then pretty (days / 7) +:+ "w ago"
         else pretty (days / 30) +:+ "mo ago")
  | None => None
  end.

(** [JobListSerializer.get_time_since_posted] *)
Definition list_time_since_posted (now : Z) (published_at : option Z) : option string :=
  match published_at with
  | Some published =>
      let days := timedelta_days (now - published) in
      Some
        (if days =? 0 then "Today"
         else if days =? 1 then "Yesterday"
         else if days <? 7 then pretty days +:+ " days ago"
         else if days <? 30 then
           let weeks := days / 7 in
           pretty weeks +:+ " week" +:+ plural weeks +:+ " ago"
         else
           let months := days / 30 in
           pretty months +:+ " month" +:+ plural months +:+ " ago")
  | None => None
  end.

(** ** views.py: [application_stats] *)

Module ApplicationStats.
Record t := {
  total_applications : nat;
  pending : nat;
  reviewed : nat;
  interview : nat;
  accepted : nat;
  rejected : nat
}.
End ApplicationStats.

(** [Count('id', filter=Q(status=s))] over a set of applications. *)
Definition count_status (s : string) (l : list JobApplication.t) : nat :=
  length (List.filter (fun a => String.eqb (JobApplication.status a) s) l).

Fixpoint insert_by_applied_at (a : JobApplication.t) (l : list JobApplication.t)
    : list JobApplication.t :=
  match l with
  | [] => [a]
  | x :: rest =>
      if JobApplication.applied_at x <? JobApplication.applied_at a
      then a :: l
      else x :: insert_by_applied_at a rest
  end.

(** [order_by('-applied_at')] *)
Definition order_by_applied_at_desc (l : list JobApplication.t)
    : list JobApplication.t :=
  List.fold_right insert_by_applied_at [] l.

(** [JobApplicationListCreateView.get_queryset] and the first line of
    [application_stats]: the applications of the user. *)
Definition applications_of (db : DB) (user : Z) : list JobApplication.t :=
  List.filter (fun a => JobApplication.applicant a =? user) (applications db).

(** [application_stats]: the counts by status and the five most recent
    applications of the user. *)
Definition application_stats (db : DB) (user : Z)
    : ApplicationStats.t * list JobApplication.t :=
  let applications := applications_of db user in
  ({| ApplicationStats.total_applications := length applications;
      ApplicationStats.pending := count_status "pending" applications;
      ApplicationStats.reviewed := count_status "reviewed" applications;
      ApplicationStats.interview := count_status "interview" applications;
      ApplicationStats.accepted := count_status "accepted" applications;
      ApplicationStats.rejected := count_status "rejected" applications |},
   take 5 (order_by_applied_at_desc applications)).

(** [a] comes before [b] under [order_by('-applied_at')]. *)
Definition not_older (a b : JobApplication.t) : Prop :=
  JobApplication.applied_at b <= JobApplication.applied_at a.

(** ** models.py: saved jobs and views of jobs *)

Module SavedJob.
Record t := {
  pk : Z;
  user : Z;
  job_id : Z;
  notes : string;
  saved_at : Z                        (* auto_now_add *)
}.
End SavedJob.

Module JobView.
Record t := {
  pk : Z;
  job_id : Z;
  user : option Z;                    (* null=True *)
  ip_address : string;
  user_agent : string;
  referrer : string;
  source : string;
  viewed_at : Z                       (* auto_now_add *)
}.
End JobView.

(** The tables of the application [jobs]. *)
Record Site := {
  site_db : DB;
  saved_jobs : list SavedJob.t;
  job_views : list JobView.t
}.

(** What the views of jobs and saved jobs answer. *)
Inductive Reply :=
| Reply201 (message : string) (saved_job : SavedJob.t)
| Reply200 (message : string)
| Reply204 (message : string)
| Reply400 (error : string)
| Reply403
| Reply404
| ReplyRaised (exception : string).

(** [not value] on what [request.data.get] returns: an absent key, a
    null, zero and the empty text are false. *)
Definition py_not (v : option Value) : bool :=
  match v with
  | None | Some VNull => true
  | Some (VInt n) => n =? 0
  | Some (VStr s) => String.eqb s ""
  end.

(** The text a text column keeps of [request.data.get('notes', '')];
    [None] is a null, which the column refuses. *)
Definition notes_of (v : option Value) : option string :=
  match v with
  | None => Some ""
  | Some VNull => None
  | Some (VInt n) => Some (pretty n)
  | Some (VStr s) => Some s
  end.

(** The key of a new saved job, as [next_pk] is for an application. *)
Definition next_saved_pk (site : Site) : Z :=
  1 + List.fold_right Z.max 0 (List.map SavedJob.pk (saved_jobs site)).

(** [SavedJobListCreateView.create]. The job is looked up as in the
    creation of an application; [get_or_create] looks the pair of user and
    job up, and creates the row when there is none. The view does not go
    through the serializer. *)
Definition save_job (site : Site) (now : Z) (user : Z) (data : gmap string Value)
    : Reply * Site :=
  if py_not (data !! "job")
  then (Reply400 "Job ID is required", site)
  else
    match get_prep_value (data !! "job") with
    | inl exception => (ReplyRaised exception, site)
    | inr _ =>
        match get_job_or_404 (site_db site) (data !! "job") with
        | None => (Reply404, site)
        | Some job =>
            match List.filter
                    (fun s => (SavedJob.user s =? user) &&
                              (SavedJob.job_id s =? Job.pk job))
                    (saved_jobs site) with
            | [] =>
                match notes_of (data !! "notes") with
                | None => (ReplyRaised "IntegrityError", site)
                | Some notes =>
                    let saved_job :=
                      {| SavedJob.pk := next_saved_pk site; SavedJob.user := user;
                         SavedJob.job_id := Job.pk job; SavedJob.notes := notes;
                         SavedJob.saved_at := now |} in
                    (Reply201 "Job saved successfully" saved_job,
                     {| site_db := site_db site;
                        saved_jobs := saved_jobs site ++ [saved_job];
                        job_views := job_views site |})
                end
            | [_] => (Reply200 "Job already saved", site)
            | _ => (ReplyRaised "MultipleObjectsReturned", site)
            end
        end
    end.

(** [SavedJobDetailView.destroy]: the saved job with that key among those
    of the user is deleted. *)
Definition unsave_job (site : Site) (user : Z) (pk : Z) : Reply * Site :=
  match List.find (fun s => (SavedJob.pk s =? pk) && (SavedJob.user s =? user))
                  (saved_jobs site) with
  | None => (Reply404, site)
  | Some instance =>
      (Reply204 "Job removed from saved list",
       {| site_db := site_db site;
          saved_jobs :=
            List.filter (fun s => negb (SavedJob.pk s =? SavedJob.pk instance))
                        (saved_jobs site);
          job_views := job_views site |})
  end.

(** [IsOwnerOrReadOnly.has_object_permission] for a user who is logged
    in; [safe] is a method of [SAFE_METHODS]. *)
Definition has_object_permission (safe : bool) (user : Z) (obj : Job.t) : bool :=
  if safe then true else Job.posted_by obj =? user.

(** [JobDetailView.destroy]: the job is deleted, and with it the rows that
    refer to it ([on_delete=CASCADE] on the applications, the saved jobs
    and the views). *)
Definition destroy_job (site : Site) (user : Z) (pk : Z) : Reply * Site :=
  match Job_objects_get (site_db site) pk with
  | None => (Reply404, site)
  | Some instance =>
      if has_object_permission false user instance
      then
        (Reply204 "Job deleted successfully",
         {| site_db :=
              {| jobs :=
                   List.filter (fun j => negb (Job.pk j =? Job.pk instance))
                               (jobs (site_db site));
                 applications :=
                   List.filter
                     (fun a => negb (JobApplication.job_id a =? Job.pk instance))
                     (applications (site_db site)) |};
            saved_jobs :=
              List.filter (fun s => negb (SavedJob.job_id s =? Job.pk instance))
                          (saved_jobs site);
            job_views :=
              List.filter (fun v => negb (JobView.job_id v =? Job.pk instance))
                          (job_views site) |})
      else (Reply403, site)
  end.

(** [unique_together = [['user', 'job']]] on the saved jobs. *)
Definition saved_unique (site : Site) : Prop :=
  NoDup (List.map (fun s => (SavedJob.user s, SavedJob.job_id s)) (saved_jobs site)).

(** Every application, saved job and view refers to a job of the table. *)
Definition references_kept (site : Site) : Prop :=
  foreign_key (site_db site) /\
  Forall (fun s => is_Some (Job_objects_get (site_db site) (SavedJob.job_id s)))
         (saved_jobs site) /\
  Forall (fun v => is_Some (Job_objects_get (site_db site) (JobView.job_id v)))
         (job_views site).

(** The jobs and applications of [db_listed]; user 20 has saved job 3 and
    viewed both jobs. *)
Definition site_listed : Site :=
  {| site_db := db_listed;
     saved_jobs :=
       [{| SavedJob.pk := 1; SavedJob.user := 20; SavedJob.job_id := 3;
           SavedJob.notes := ""; SavedJob.saved_at := t0 |}];
     job_views :=
       [{| JobView.pk := 1; JobView.job_id := 3; JobView.user := Some 20;
           JobView.ip_address := "203.0.113.7"; JobView.user_agent := "";
           JobView.referrer := ""; JobView.source := "web";
           JobView.viewed_at := t0 |};
        {| JobView.pk := 2; JobView.job_id := 1; JobView.user := Some 20;
           JobView.ip_address := "203.0.113.7"; JobView.user_agent := "";
           JobView.referrer := ""; JobView.source := "web";
           JobView.viewed_at := t0 |}] |}.

(** User 21 saves job 3. *)
Definition save_request : gmap string Value := {["job" := VInt 3]}.

(** The row and the tables after that. *)
Definition saved_row : SavedJob.t :=
  {| SavedJob.pk := 2; SavedJob.user := 21; SavedJob.job_id := 3;
     SavedJob.notes := ""; SavedJob.saved_at := t0 |}.

Definition site_saved : Site :=
  {| site_db := site_db site_listed;
     saved_jobs := saved_jobs site_listed ++ [saved_row];
     job_views := job_views site_listed |}.

(** A PATCH of user 20 half a thousand ticks later, naming a status too,
    and the row it leaves. *)
Definition patch_request : gmap string Value :=
  <["status" := VStr "accepted"]> {["cover_letter" := VStr letter60]}.

Definition application_patched : JobApplication.t :=
  {| JobApplication.pk := 1; JobApplication.job_id := 1;
     JobApplication.applicant := 20;
     JobApplication.cover_letter := letter60; JobApplication.resume_file := "";
     JobApplication.portfolio_url := ""; JobApplication.status := "pending";
     JobApplication.notes := ""; JobApplication.last_contact_date := None;
     JobApplication.interview_scheduled_at := None;
     JobApplication.source := "website"; JobApplication.applied_at := 1000;
     JobApplication.updated_at := t0 + 500 |}.

(** * Properties *)

(** ** Trimming *)

Lemma lstrip_cases s :
  lstrip s = EmptyString \/
  exists c rest, lstrip s = String c rest /\ py_isspace c = false.
Proof.
  induction s as [|c s IH]; simpl; [by left|].
  destruct (py_isspace c) eqn:Hc; [exact IH|].
  right. by exists c, s.
Qed.

Lemma rstrip_head c rest :
  py_isspace c = false -> exists kept, rstrip (String c rest) = String c kept.
Proof.
  intros Hc. simpl. destruct (rstrip rest) as [|a kept].
  - rewrite Hc. by exists EmptyString.
  - by exists (String a kept).
Qed.

Lemma rstrip_idemp s : rstrip (rstrip s) = rstrip s.
Proof.
  induction s as [|c s IH]; [done|].
  simpl. destruct (rstrip s) as [|a kept] eqn:Hs.
  - destruct (py_isspace c) eqn:Hc; simpl; [done|]. by rewrite Hc.
  - change (rstrip (String c (String a kept))) with
      (match rstrip (String a kept) with
       | EmptyString => if py_isspace c then EmptyString else String c EmptyString
       | kept' => String c kept'
       end).
    by rewrite IH.
Qed.

Lemma lstrip_strip s : lstrip (strip s) = strip s.
Proof.
  unfold strip. destruct (lstrip_cases s) as [->|(c & rest & -> & Hc)]; [done|].
  destruct (rstrip_head c rest Hc) as [kept ->]. simpl. by rewrite Hc.
Qed.

Lemma strip_idemp s : strip (strip s) = strip s.
Proof.
  unfold strip at 1. rewrite lstrip_strip. unfold strip. apply rstrip_idemp.
Qed.

Lemma truthy_false s : truthy s = false -> s = EmptyString.
Proof. unfold truthy. by intros ->%negb_false_iff%String.eqb_eq. Qed.

(** A cover letter of fifty characters or more, white space apart, passes
    the field and its hook, and is stored trimmed. *)
Lemma cover_letter_accepted partial letter :
  50 <= len (strip letter) ->
  with_hook (run_validation false partial (Some (VStr letter)) CharField)
            validate_cover_letter = inr (Some (strip letter)).
Proof.
  intros Hlen. simpl. unfold validate_cover_letter. rewrite strip_idemp.
  destruct (len (strip letter) <? 50) eqn:Hlt; [lia|].
  rewrite andb_false_r. destruct (truthy (strip letter)) eqn:Ht; [done|].
  by rewrite (truthy_false _ Ht).
Qed.

(** ** Creation of an application *)

Section Validation.
Context {V : URLValidator}.

(** The job a valid request names by [job_id] is there, active and open. *)
Lemma validate_job_id_ok db now value :
  validate_job_id db now value = inr value <->
  exists job, Job_objects_get db value = Some job /\
              Job.status job = "active" /\
              match Job.application_deadline job with
              | Some deadline => now < deadline
              | None => True
              end.
Proof.
  unfold validate_job_id. split.
  - destruct (Job_objects_get db value) as [job|]; [|done].
    destruct (String.eqb_spec (Job.status job) "active") as [Hs|Hs]; [|done].
    simpl. intros H. exists job. split; [done|]. split; [done|].
    destruct (Job.application_deadline job) as [d|]; [|done].
    destruct (d <=? now) eqn:Hd; [done|lia].
  - intros (job & -> & -> & Hd). simpl.
    destruct (Job.application_deadline job) as [d|]; [|done].
    destruct (d <=? now) eqn:Hle; [lia|done].
Qed.

Lemma validate_job_id_inr db now value r :
  validate_job_id db now value = inr r -> r = value.
Proof.
  unfold validate_job_id. repeat case_match; congruence.
Qed.

Lemma request_job job job_id letter :
  request job job_id letter !! "job" = Some (VInt job).
Proof. done. Qed.

Lemma is_valid_request db now id job letter :
  Job_objects_get db id = Some job ->
  Job.status job = "active" ->
  match Job.application_deadline job with
  | Some deadline => now < deadline
  | None => True
  end ->
  50 <= len (strip letter) ->
  forall jobkey,
  is_valid db now false (request jobkey id letter) =
    inr {| v_job_id := Some id; v_cover_letter := Some (strip letter);
           v_resume_file := None; v_portfolio_url := None;
           v_status := None; v_source := None |}.
Proof.
  intros Hjob Hstatus Hdeadline Hlen jobkey.
  assert (validate_job_id db now id = inr id) as Hid
    by (apply validate_job_id_ok; eauto).
  unfold is_valid.
  change (request jobkey id letter !! "job_id") with (Some (VInt id)).
  change (request jobkey id letter !! "cover_letter") with (Some (VStr letter)).
  change (request jobkey id letter !! "resume_file") with (@None Value).
  change (request jobkey id letter !! "portfolio_url") with (@None Value).
  change (request jobkey id letter !! "status") with (@None Value).
  change (request jobkey id letter !! "source") with (@None Value).
  rewrite (cover_letter_accepted false letter Hlen).
  simpl. by rewrite Hid.
Qed.
End Validation.

Lemma get_job_or_404_Some db value job :
  get_job_or_404 db value = Some job ->
  exists id, get_prep_value value = inr (Some id) /\ Job_objects_get db id = Some job.
Proof.
  unfold get_job_or_404. destruct (get_prep_value value) as [?|[id|]]; try done.
  eauto.
Qed.

Section Inversion.
Context {V : URLValidator}.

(** What a request went through when the view answers 201. *)
Lemma create_201_inv db now user data message application db' :
  create db now user data = (Http201 message application, db') ->
  exists validated job job_id deadline,
    is_valid db now false data = inr validated /\
    get_job_or_404 db (data !! "job") = Some job /\
    Job.posted_by job <> user /\
    Job.status job = "published" /\
    Job.application_deadline job = Some deadline /\ now < deadline /\
    application_exists db (Job.pk job) user = false /\
    v_job_id validated = Some job_id /\
    application_exists db job_id user = false /\
    application = objects_create db now user job job_id validated /\
    db' = insert_application db application.
Proof.
  unfold create, serializer_create.
  destruct (is_valid db now false data) as [errors|validated]; [done|].
  destruct (get_prep_value (data !! "job")) as [?|key]; [done|].
  destruct (get_job_or_404 db (data !! "job")) as [job|]; [|done].
  destruct (Z.eqb_spec (Job.posted_by job) user); [done|].
  destruct (String.eqb_spec (Job.status job) "published"); [|done].
  simpl. destruct (Job.application_deadline job) as [deadline|] eqn:Hdl; [|done].
  destruct (deadline <=? now) eqn:Hd; [done|].
  destruct (application_exists db (Job.pk job) user) eqn:Hv; [done|].
  destruct (v_job_id validated) as [job_id|] eqn:Hid; [|done].
  destruct (application_exists db job_id user) eqn:Hs; [done|].
  intros [= <- <- <-]. exists validated, job, job_id, deadline.
  split_and!; try done. lia.
Qed.

(** The view changes the tables only when it answers 201. *)
Lemma create_frame db now user data :
  (create db now user data).2 = db \/
  exists message application,
    create db now user data =
      (Http201 message application, insert_application db application).
Proof.
  unfold create.
  repeat (case_match; simpl; try by left). right. eauto.
Qed.

(** A valid request names by [job_id] a job that is there, active and
    open. *)
Lemma is_valid_job_id db now data validated :
  is_valid db now false data = inr validated ->
  exists value id job,
    data !! "job_id" = Some value /\ IntegerField value = inr id /\
    v_job_id validated = Some id /\
    Job_objects_get db id = Some job /\ Job.status job = "active" /\
    match Job.application_deadline job with
    | Some deadline => now < deadline
    | None => True
    end.
Proof.
  unfold is_valid.
  destruct (data !! "job_id") as [value|]; [|simpl; done].
  assert (run_validation true false (Some value) IntegerField =
          match value with
          | VNull => inl ["null"]
          | _ => match IntegerField value with
                 | inl e => inl e
                 | inr a => inr (Some a)
                 end
          end) as -> by (by destruct value).
  destruct (IntegerField value) as [?|id] eqn:Hfield;
    [by destruct value|].
  assert (value <> VNull) as Hnull by (by intros ->).
  replace (match value with
           | VNull => inl ["null"]
           | _ => inr (Some id)
           end) with (@inr (list string) _ (Some id)) by (by destruct value).
  simpl.
  destruct (validate_job_id db now id) as [?|r] eqn:Hraw; simpl; [done|].
  pose proof (validate_job_id_inr _ _ _ _ Hraw) as ->.
  apply validate_job_id_ok in Hraw as (job & ? & ? & ?).
  intros Hvalid. exists value, id, job. split_and!; try done.
  repeat case_match; simplify_eq/=; done.
Qed.

(** The answers of the view after the validation of the fields. *)
Lemma create_view_checks db now user data validated :
  is_valid db now false data = inr validated ->
  view_checks db now user data (create db now user data).1
    (fun job =>
       match serializer_create db now user job validated with
       | inl raised => raised
       | inr application => Http201 "Application submitted successfully" application
       end).
Proof.
  intros Hvalid. unfold view_checks, create. rewrite Hvalid. split.
  - by intros exception ->.
  - intros key ->. split; [by intros ->|]. intros job ->. split.
    + intros Hposter. by destruct (Z.eqb_spec (Job.posted_by job) user).
    + intros Hposter. destruct (Z.eqb_spec (Job.posted_by job) user); [done|]. split.
      * intros Hstatus. by destruct (String.eqb_spec (Job.status job) "published").
      * intros ->. simpl. split; [by intros ->|]. intros deadline ->. split.
        -- intros Hle. by destruct (Z.leb_spec deadline now); [|lia].
        -- intros Hlt. destruct (Z.leb_spec deadline now); [lia|]. split.
           ++ by intros ->.
           ++ intros ->. by destruct (serializer_create db now user job validated).
Qed.
End Inversion.

Section ActiveJob.
Context {V : URLValidator}.

(** C1. An applicant who is not the poster sends a cover letter of at
    least 50 trimmed characters for an active job whose deadline is in
    the future and to which they have not applied: the specification
    promises a new pending application, and the view answers 400, "This
    job is not accepting applications", and creates nothing. The
    serializer demands the status [active], the view the status
    [published]. *)
Theorem create_active_job_not_accepting db now user id job deadline letter :
  Job_objects_get db id = Some job ->
  Job.status job = "active" ->
  Job.application_deadline job = Some deadline ->
  now < deadline ->
  Job.posted_by job <> user ->
  50 <= len (strip letter) ->
  application_exists db id user = false ->
  create db now user (request id id letter) =
    (Http400 "This job is not accepting applications", db).
Proof.
  intros Hjob Hstatus Hdeadline Hnow Hposter Hlen Hnew.
  unfold create.
  rewrite (is_valid_request db now id job letter Hjob Hstatus); [|by rewrite Hdeadline|done].
  rewrite request_job. unfold get_job_or_404. simpl. rewrite Hjob.
  destruct (Z.eqb_spec (Job.posted_by job) user); [done|].
  by rewrite Hstatus.
Qed.

End ActiveJob.


Lemma create_active_job_not_accepting_witness :
  create (V := https_only) db_open t0 20 (request 1 1 letter60) =
    (Http400 "This job is not accepting applications", db_open).
Proof.
  apply (create_active_job_not_accepting (V := https_only) db_open t0 20 1
           (job_row 1 10 "active" (Some (t0 + day))) (t0 + day) letter60);
    [reflexivity | reflexivity | reflexivity | reflexivity | discriminate
    | discriminate | reflexivity].
Defined.

Section CheckOrder.
Context {V : URLValidator}.

(** C3. A request that passes validation and reaches the deadline check of
    the view for a job without a deadline is not answered at all: the
    comparison of [None] with the clock raises [TypeError], where the
    serializer and [Job.is_expired] test for the null deadline first. *)
Theorem create_null_deadline_raises db now user data validated job :
  is_valid db now false data = inr validated ->
  get_job_or_404 db (data !! "job") = Some job ->
  Job.posted_by job <> user ->
  Job.status job = "published" ->
  Job.application_deadline job = None ->
  create db now user data = (Raised "TypeError", db).
Proof.
  intros Hvalid Hjob Hposter Hstatus Hdeadline. unfold create.
  destruct (get_job_or_404_Some _ _ _ Hjob) as (id & -> & _).
  rewrite Hvalid, Hjob.
  destruct (Z.eqb_spec (Job.posted_by job) user); [done|].
  by rewrite Hstatus, Hdeadline.
Qed.


End CheckOrder.


Lemma create_null_deadline_raises_witness :
  create (V := https_only) db_no_deadline t0 20 (request 2 1 letter60) =
    (Raised "TypeError", db_no_deadline).
Proof.
  apply (create_null_deadline_raises (V := https_only) db_no_deadline t0 20
           (request 2 1 letter60)
           {| v_job_id := Some 1; v_cover_letter := Some letter60;
              v_resume_file := None; v_portfolio_url := None;
              v_status := None; v_source := None |}
           (job_row 2 10 "published" None));
    [reflexivity | reflexivity | discriminate | reflexivity | reflexivity].
Defined.




(** ** The invariants of [job_applications] *)

Lemma application_exists_false db j u :
  application_exists db j u = false -> (j, u) ∉ List.map key (applications db).
Proof.
  unfold application_exists. induction (applications db) as [|a l IH]; simpl.
  - intros _. apply not_elem_of_nil.
  - intros [Ha Hl]%orb_false_elim. apply not_elem_of_cons. split; [|auto].
    unfold key. intros [= -> ->]. rewrite !Z.eqb_refl in Ha. done.
Qed.

Lemma application_exists_true db a :
  a ∈ applications db ->
  application_exists db (JobApplication.job_id a) (JobApplication.applicant a) = true.
Proof.
  unfold application_exists. induction 1 as [a l|a b l _ IH]; simpl.
  - by rewrite !Z.eqb_refl.
  - rewrite IH. apply orb_true_r.
Qed.

Lemma pk_below_next db a :
  a ∈ applications db -> JobApplication.pk a < next_pk db.
Proof.
  unfold next_pk. induction 1 as [a l|a b l _ IH]; simpl; lia.
Qed.

Lemma next_pk_fresh db : next_pk db ∉ List.map JobApplication.pk (applications db).
Proof.
  intros Hin. apply list_elem_of_In, in_map_iff in Hin as (a & Heq & Ha).
  apply list_elem_of_In, pk_below_next in Ha. lia.
Qed.

Lemma NoDup_snoc {A} (l : list A) (x : A) : NoDup l -> x ∉ l -> NoDup (l ++ [x]).
Proof.
  intros Hl Hx. apply NoDup_app. split_and!; [done| |apply NoDup_singleton].
  intros y Hy ->%list_elem_of_singleton. done.
Qed.

(** Two rows with one key are one row. *)
Lemma primary_key_inj db a b :
  primary_key db -> a ∈ applications db -> b ∈ applications db ->
  JobApplication.pk a = JobApplication.pk b -> a = b.
Proof.
  unfold primary_key. induction (applications db) as [|x l IH]; simpl.
  - intros _ Ha. by apply elem_of_nil in Ha.
  - intros [Hx Hl]%NoDup_cons [->|Ha]%elem_of_cons [->|Hb]%elem_of_cons Hpk;
      [done| | |by apply IH].
    + exfalso. apply Hx. rewrite Hpk. apply list_elem_of_In, in_map, list_elem_of_In, Hb.
    + exfalso. apply Hx. rewrite <- Hpk. apply list_elem_of_In, in_map, list_elem_of_In, Ha.
Qed.

Lemma get_application_Some db user id a :
  get_application db user id = Some a ->
  a ∈ applications db /\ JobApplication.pk a = id /\ JobApplication.applicant a = user.
Proof.
  unfold get_application. intros [Hin Hp]%find_some.
  apply andb_true_iff in Hp as [?%Z.eqb_eq ?%Z.eqb_eq].
  by rewrite list_elem_of_In.
Qed.

Section Invariants.
Context {V : URLValidator}.

(** The filtered data of an update holds the two allowed keys only. *)
Lemma filtered_lookup (request_data : gmap string Value) name :
  name ∉ allowed_fields ->
  filter (fun kv => kv.1 ∈ allowed_fields) request_data !! name = None.
Proof.
  intros Hname. apply map_lookup_filter_None. right. intros x _. exact Hname.
Qed.

Lemma not_allowed name :
  name <> "cover_letter" -> name <> "portfolio_url" -> name ∉ allowed_fields.
Proof.
  intros H1 H2 Hin. unfold allowed_fields in Hin.
  apply elem_of_cons in Hin as [?|Hin]; [done|].
  apply elem_of_cons in Hin as [?|Hin]; [done|].
  by apply elem_of_nil in Hin.
Qed.

Lemma is_valid_filtered db now partial request_data validated :
  is_valid db now partial
           (filter (fun kv => kv.1 ∈ allowed_fields) request_data) = inr validated ->
  v_job_id validated = None /\ v_resume_file validated = None /\
  v_status validated = None /\ v_source validated = None.
Proof.
  unfold is_valid.
  rewrite (filtered_lookup request_data "job_id"),
          (filtered_lookup request_data "resume_file"),
          (filtered_lookup request_data "status"),
          (filtered_lookup request_data "source")
    by (apply not_allowed; done).
  destruct partial; simpl; [|intros H; discriminate H].
  match goal with
  | |- match ?errors with [] => _ | _ :: _ => _ end = _ -> _ =>
      destruct errors; [|intros H; discriminate H]
  end.
  by intros [= <-].
Qed.

Lemma create_primary_key db now user data :
  primary_key db -> primary_key (create db now user data).2.
Proof.
  intros Hpk. destruct (create_frame db now user data) as [->|(m & a & Hc)]; [done|].
  pose proof Hc as Hinv.
  apply create_201_inv in Hinv as (v & job & jid & d & _ & _ & _ & _ & _ & _ & _ & _ & _ & -> & _).
  rewrite Hc. unfold primary_key. simpl. rewrite List.map_app. simpl.
  apply NoDup_snoc; [done|apply next_pk_fresh].
Qed.

Lemma create_unique_together db now user data :
  unique_together db -> unique_together (create db now user data).2.
Proof.
  intros Hu. destruct (create_frame db now user data) as [->|(m & a & Hc)]; [done|].
  pose proof Hc as Hinv.
  apply create_201_inv in Hinv
    as (v & job & jid & d & _ & _ & _ & _ & _ & _ & _ & _ & Hnew & -> & _).
  rewrite Hc. unfold unique_together. simpl. rewrite List.map_app. simpl.
  apply NoDup_snoc; [done|by apply application_exists_false].
Qed.

Lemma withdraw_keys db user id :
  List.map key (applications (withdraw_application db user id).2) =
    List.map key (applications db) /\
  List.map JobApplication.pk (applications (withdraw_application db user id).2) =
    List.map JobApplication.pk (applications db).
Proof.
  unfold withdraw_application. repeat case_match; simpl; try done.
  rewrite !List.map_map. split; apply List.map_ext; intros a; by case_match.
Qed.

Lemma update_keys db now user pk partial request_data :
  primary_key db ->
  List.map key (applications (update db now user pk partial request_data).2) =
    List.map key (applications db) /\
  List.map JobApplication.pk
           (applications (update db now user pk partial request_data).2) =
    List.map JobApplication.pk (applications db).
Proof.
  intros Hpk. unfold update.
  destruct (get_application db user pk) as [instance|] eqn:Hget; [|done].
  destruct (is_valid _ _ _ _) as [?|validated] eqn:Hvalid; [done|].
  apply get_application_Some in Hget as (Hin & _ & _).
  apply is_valid_filtered in Hvalid as (Hid & _). simpl.
  rewrite !List.map_map.
  split; apply List.map_ext_in; intros row Hrow%list_elem_of_In; simpl.
  - destruct (Z.eqb_spec (JobApplication.pk row) (JobApplication.pk instance))
      as [Heq|]; [|done].
    rewrite (primary_key_inj db row instance Hpk Hrow Hin Heq).
    unfold key. simpl. by rewrite Hid.
  - by destruct (Z.eqb_spec (JobApplication.pk row) (JobApplication.pk instance)).
Qed.
End Invariants.

Section Uniqueness.
Context {V : URLValidator}.

(** C5, amended. Creation, update and withdrawal keep one application at
    most for each pair of a job and an applicant. A request of an
    applicant who has an application for the job it names under [job_id],
    the key the row is stored by, creates nothing. It is answered with the
    errors of the validation of its fields when that fails, else with the
    answer of the first check of the view that fails, the last of which is
    "You have already applied to this job" (400) for an applicant who has
    an application for the job under [job] as well; and when no check of
    the view fails, the serializer raises the [ValidationError] "You have
    already applied to this job." A request of an applicant who has an
    application for the job it names under [job] creates nothing
    either. *)
Theorem create_at_most_once db now user data :
  (unique_together db -> unique_together (create db now user data).2) /\
  (forall pk partial request_data,
      primary_key db -> unique_together db ->
      unique_together (update db now user pk partial request_data).2) /\
  (forall id, unique_together db ->
              unique_together (withdraw_application db user id).2) /\
  (forall value id,
     data !! "job_id" = Some value -> IntegerField value = inr id ->
     application_exists db id user = true ->
     (create db now user data).2 = db /\
     (forall errors, is_valid db now false data = inl errors ->
        (create db now user data).1 = ValidationError (FieldErrors errors)) /\
     (forall validated, is_valid db now false data = inr validated ->
        view_checks db now user data (create db now user data).1
          (fun _ =>
             ValidationError
               (NonFieldErrors ["You have already applied to this job."])))) /\
  (forall job, get_job_or_404 db (data !! "job") = Some job ->
     application_exists db (Job.pk job) user = true ->
     (create db now user data).2 = db).
Proof.
  split_and!.
  - apply create_unique_together.
  - intros pk partial request_data Hpk Hu. unfold unique_together.
    by rewrite (proj1 (update_keys db now user pk partial request_data Hpk)).
  - intros id Hu. unfold unique_together.
    by rewrite (proj1 (withdraw_keys db user id)).
  - intros value id Hid Hfield Hexists. split_and!.
    + destruct (create_frame db now user data) as [->|(m & a & Hc)]; [done|].
      apply create_201_inv in Hc
        as (validated & ? & jid & ? & Hvalid & _ & _ & _ & _ & _ & _ & Hv & Hnone & _).
      destruct (is_valid_job_id _ _ _ _ Hvalid)
        as (value' & id' & ? & Hid' & Hfield' & Hv' & _).
      congruence.
    + intros errors Hvalid. unfold create. by rewrite Hvalid.
    + intros validated Hvalid.
      destruct (is_valid_job_id _ _ _ _ Hvalid)
        as (value' & id' & ? & Hid' & Hfield' & Hv' & _).
      assert (id' = id) as -> by congruence.
      pose proof (create_view_checks db now user data validated Hvalid) as Hchecks.
      unfold view_checks in *. unfold serializer_create in Hchecks.
      rewrite Hv', Hexists in Hchecks. exact Hchecks.
  - intros job Hjob Hexists.
    destruct (create_frame db now user data) as [->|(m & a & Hc)]; [done|].
    apply create_201_inv in Hc
      as (? & job' & ? & ? & _ & Hjob' & _ & _ & _ & _ & Hnone & _).
    congruence.
Qed.
End Uniqueness.

(** C5 as stated fails: a second attempt for the same pair with a short
    cover letter is answered by the validation of the cover letter, not
    with "already applied". *)
Lemma create_twice_counterexample :
  application_exists db_applied 1 20 = true /\
  (create (V := https_only) db_applied t0 20 (request 1 1 "Hire me")).1 =
    ValidationError
      (FieldErrors
         [("cover_letter", ["Cover letter should be at least 50 characters long."])]) /\
  classify (create (V := https_only) db_applied t0 20 (request 1 1 "Hire me")).1 <>
    Failure (Rejected "already applied").
Proof.
  split_and!.
  - reflexivity.
  - reflexivity.
  - discriminate.
Qed.

Lemma create_at_most_once_witness :
  application_exists db_applied_listed 1 20 = true /\
  create (V := https_only) db_applied_listed t0 20 (request 3 1 letter60) =
    (ValidationError (NonFieldErrors ["You have already applied to this job."]),
     db_applied_listed).
Proof.
  split; [reflexivity|].
  destruct (create_at_most_once (V := https_only) db_applied_listed t0 20
              (request 3 1 letter60)) as (_ & _ & _ & Hdup & _).
  destruct (Hdup (VInt 1) 1) as (Hdb & _ & Hview);
    [reflexivity | reflexivity | reflexivity |].
  rewrite (surjective_pairing
             (create db_applied_listed t0 20 (request 3 1 letter60))).
  rewrite Hdb.
  destruct (Hview {| v_job_id := Some 1; v_cover_letter := Some letter60;
                     v_resume_file := None; v_portfolio_url := None;
                     v_status := None; v_source := None |})
    as [_ Hkey]; [reflexivity|].
  destruct (Hkey (Some 3)) as [_ Hjob]; [reflexivity|].
  destruct (Hjob (job_row 3 10 "published" (Some (t0 + day)))) as [_ Hother];
    [reflexivity|].
  destruct Hother as [_ Hpublished]; [discriminate|].
  destruct Hpublished as [_ Hdeadline]; [reflexivity|].
  destruct (Hdeadline (t0 + day)) as [_ Hopen]; [reflexivity|].
  destruct Hopen as [_ Hnew]; [reflexivity|].
  rewrite Hnew; reflexivity.
Defined.

(** ** Withdrawal *)

Lemma find_map_status id user l a :
  List.find (fun a => (JobApplication.pk a =? id) && (JobApplication.applicant a =? user)) l
    = Some a ->
  List.find (fun a => (JobApplication.pk a =? id) && (JobApplication.applicant a =? user))
    (List.map (fun row => if JobApplication.pk row =? id
                          then JobApplication.set_status "withdrawn" row
                          else row) l)
    = Some (JobApplication.set_status "withdrawn" a).
Proof.
  induction l as [|x l IH]; simpl; [done|].
  destruct (Z.eqb_spec (JobApplication.pk x) id) as [Hx|Hx]; simpl.
  - rewrite Hx, Z.eqb_refl. simpl.
    destruct (JobApplication.applicant x =? user); [by intros [= ->]|exact IH].
  - destruct (Z.eqb_spec (JobApplication.pk x) id); [done|]. exact IH.
Qed.

(** C6, amended. For the applicant of an application, withdrawal fails
    exactly when the status is [accepted] or [rejected], with 400 and the
    tables as they were; from every other status, [withdrawn] included, it
    succeeds and writes [withdrawn] into the status of that row, and
    nothing else. *)
Theorem withdraw_by_applicant db user id application :
  get_application db user id = Some application ->
  (JobApplication.status application ∈ ["accepted"; "rejected"] ->
   withdraw_application db user id =
     (Http400 "Cannot withdraw application with current status", db)) /\
  (JobApplication.status application ∉ ["accepted"; "rejected"] ->
   (withdraw_application db user id).1 =
     Http200 "Application withdrawn successfully" /\
   get_application (withdraw_application db user id).2 user id =
     Some (JobApplication.set_status "withdrawn" application) /\
   jobs (withdraw_application db user id).2 = jobs db /\
   applications (withdraw_application db user id).2 =
     List.map (fun row => if JobApplication.pk row =? id
                          then JobApplication.set_status "withdrawn" row
                          else row)
              (applications db)).
Proof.
  intros Hget. unfold withdraw_application. rewrite Hget.
  pose proof (get_application_Some _ _ _ _ Hget) as (_ & Hpk & _).
  split; intros Hstatus.
  - by rewrite bool_decide_eq_true_2.
  - rewrite bool_decide_eq_false_2 by done. simpl. rewrite Hpk.
    split_and!; try done. unfold get_application in *. simpl.
    by apply find_map_status.
Qed.

Lemma withdraw_by_applicant_witness :
  (JobApplication.status (application_row 1 1 20 "pending")
     ∈ ["accepted"; "rejected"] ->
   withdraw_application db_applied 20 1 =
     (Http400 "Cannot withdraw application with current status", db_applied)) /\
  (JobApplication.status (application_row 1 1 20 "pending")
     ∉ ["accepted"; "rejected"] ->
   (withdraw_application db_applied 20 1).1 =
     Http200 "Application withdrawn successfully" /\
   get_application (withdraw_application db_applied 20 1).2 20 1 =
     Some (JobApplication.set_status "withdrawn" (application_row 1 1 20 "pending")) /\
   jobs (withdraw_application db_applied 20 1).2 = jobs db_applied /\
   applications (withdraw_application db_applied 20 1).2 =
     List.map (fun row => if JobApplication.pk row =? 1
                          then JobApplication.set_status "withdrawn" row
                          else row)
              (applications db_applied)).
Proof.
  apply (withdraw_by_applicant db_applied 20 1 (application_row 1 1 20 "pending")).
  reflexivity.
Defined.

(** C6 as stated fails: [withdrawn] is not one of the six statuses, and the
    withdrawal of a withdrawn application succeeds. *)
Lemma withdraw_twice_counterexample :
  get_application db_withdrawn 20 1 = Some (application_row 1 1 20 "withdrawn") /\
  ("withdrawn" ∉ spec_withdrawable) /\
  withdraw_application db_withdrawn 20 1 =
    (Http200 "Application withdrawn successfully", db_withdrawn).
Proof.
  split_and!.
  - reflexivity.
  - apply (bool_decide_eq_false_1 _). reflexivity.
  - reflexivity.
Qed.

Lemma get_application_None db user id :
  (forall a, a ∈ applications db -> JobApplication.pk a = id ->
             JobApplication.applicant a <> user) ->
  get_application db user id = None.
Proof.
  intros Hother. unfold get_application.
  destruct (List.find _ _) as [a|] eqn:Hfind; [|done].
  apply get_application_Some in Hfind as (Hin & Hpk & Huser).
  by destruct (Hother a Hin Hpk).
Qed.

(** C7, amended. A withdrawal by a user who is not the applicant of the
    application is answered 404, as for an application that does not
    exist, and changes nothing. *)
Theorem withdraw_not_applicant db user id :
  (forall a, a ∈ applications db -> JobApplication.pk a = id ->
             JobApplication.applicant a <> user) ->
  withdraw_application db user id = (Http404, db).
Proof.
  intros Hother. unfold withdraw_application.
  by rewrite (get_application_None db user id Hother).
Qed.

Lemma withdraw_not_applicant_witness :
  withdraw_application db_applied 21 1 = (Http404, db_applied).
Proof.
  apply (withdraw_not_applicant db_applied 21 1).
  intros a Ha _. apply list_elem_of_singleton in Ha as ->. discriminate.
Defined.

(** C7 as stated fails: user 21 asks to withdraw the application of user
    20 and is answered 404, which is not the ownership error. *)
Lemma withdraw_not_applicant_counterexample :
  get_application db_applied 20 1 = Some (application_row 1 1 20 "pending") /\
  (withdraw_application db_applied 21 1).1 = Http404 /\
  classify (withdraw_application db_applied 21 1).1 <> Failure Forbidden.
Proof.
  split_and!.
  - reflexivity.
  - reflexivity.
  - discriminate.
Qed.

(** ** Update by the applicant *)

Lemma frame_refl row : frame row row.
Proof. unfold frame. split_and!; reflexivity. Qed.

Lemma Forall2_map_in {A} (R : A -> A -> Prop) (g : A -> A) (l : list A) :
  (forall x, x ∈ l -> R x (g x)) -> Forall2 R l (List.map g l).
Proof.
  induction l as [|x l IH]; simpl; intros HR; constructor.
  - apply HR. by left.
  - apply IH. intros y Hy. apply HR. by right.
Qed.

Lemma Forall2_unchanged pk l :
  Forall2 (fun row row' =>
             frame row row' /\ (JobApplication.pk row <> pk -> row' = row)) l l.
Proof.
  induction l; constructor; [|done]. split; [apply frame_refl|done].
Qed.

Section Update.
Context {V : URLValidator}.

(** C10, amended. Whatever the request supplies, an update through the
    detail view leaves the jobs alone and changes nothing of an
    application but the cover letter, the portfolio link and the time
    stamp [updated_at], and these of the application named only. *)
Theorem update_frame db now user pk partial request_data :
  primary_key db ->
  jobs (update db now user pk partial request_data).2 = jobs db /\
  Forall2 (fun row row' =>
             frame row row' /\ (JobApplication.pk row <> pk -> row' = row))
          (applications db)
          (applications (update db now user pk partial request_data).2).
Proof.
  intros Hpk. unfold update.
  destruct (get_application db user pk) as [instance|] eqn:Hget.
  2: { split; [done|]. apply Forall2_unchanged. }
  destruct (is_valid _ _ _ _) as [?|validated] eqn:Hvalid.
  { split; [done|]. apply Forall2_unchanged. }
  apply get_application_Some in Hget as (Hin & Hid & _).
  apply is_valid_filtered in Hvalid as (Hjob & Hfile & Hstatus & Hsource).
  simpl. split; [done|]. apply Forall2_map_in. intros row Hrow.
  destruct (Z.eqb_spec (JobApplication.pk row) (JobApplication.pk instance))
    as [Heq|Hne].
  - rewrite (primary_key_inj db row instance Hpk Hrow Hin Heq). split.
    + unfold frame. simpl. rewrite Hjob, Hfile, Hstatus, Hsource.
      split_and!; reflexivity.
    + intros Hother. congruence.
  - split; [apply frame_refl|done].
Qed.

(** A PUT never passes validation: the view drops [job_id] from the data
    and the serializer requires it. *)
Lemma update_put_rejected db now user pk request_data :
  (update db now user pk false request_data).2 = db /\
  ((update db now user pk false request_data).1 = Http404 \/
   exists errors,
     (update db now user pk false request_data).1 =
       ValidationError (FieldErrors (("job_id", ["required"]) :: errors))).
Proof.
  unfold update. destruct (get_application db user pk); [|by split; [|left]].
  unfold is_valid. rewrite (filtered_lookup request_data "job_id")
    by (apply not_allowed; done).
  simpl. split; [done|]. right. eauto.
Qed.
End Update.

Lemma update_frame_witness :
  jobs (update (V := https_only) db_applied (t0 + 500) 20 1 true
          (<["status" := VStr "accepted"]> {["cover_letter" := VStr letter60]})).2
    = jobs db_applied /\
  Forall2 (fun row row' =>
             frame row row' /\ (JobApplication.pk row <> 1 -> row' = row))
          (applications db_applied)
          (applications
             (update (V := https_only) db_applied (t0 + 500) 20 1 true
                (<["status" := VStr "accepted"]>
                   {["cover_letter" := VStr letter60]})).2).
Proof.
  apply (update_frame (V := https_only) db_applied (t0 + 500) 20 1 true
           (<["status" := VStr "accepted"]> {["cover_letter" := VStr letter60]})).
  unfold primary_key. simpl. apply NoDup_singleton.
Defined.

(** C10 as stated fails: the update writes the row through
    [instance.save()], and [updated_at] is an [auto_now] column. *)
Lemma update_refreshes_updated_at_counterexample :
  JobApplication.updated_at <$> get_application db_applied 20 1 = Some 1000 /\
  JobApplication.updated_at <$>
    get_application
      (update (V := https_only) db_applied (t0 + 500) 20 1 true
         {["cover_letter" := VStr letter60]}).2 20 1 = Some 1500.
Proof. split; reflexivity. Qed.

(** ** Counts *)

Lemma Job_objects_get_pk db id job : Job_objects_get db id = Some job -> Job.pk job = id.
Proof.
  unfold Job_objects_get. intros [_ Hpk]%find_some. by apply Z.eqb_eq.
Qed.


Section Counter.
Context {V : URLValidator}.

End Counter.



(** ** The success rate of the dashboard *)

(** [round_half_even] is at most half a unit away. *)
Lemma round_half_even_nearest num den :
  0 < den -> 2 * Z.abs (round_half_even num den * den - num) <= den.
Proof.
  intros Hden. unfold round_half_even.
  pose proof (Z.div_mod num den ltac:(lia)) as Hdiv.
  pose proof (Z.mod_pos_bound num den Hden) as Hmod.
  set (q := num / den) in *. set (r := num mod den) in *.
  destruct (Z.ltb_spec (2 * r) den); [lia|].
  destruct (Z.ltb_spec den (2 * r)); [lia|].
  destruct (Z.even q); lia.
Qed.

Lemma IZR_pow2 k : 0 <= k -> IZR (2 ^ k) = powerRZ 2 k.
Proof.
  destruct k as [|p|p]; [reflexivity| |lia]. intros _.
  change (2 ^ Z.pos p) with (Z.pow_pos 2 p). apply Zpower_pos_powerRZ.
Qed.

Lemma pow2_pos k : (0 < powerRZ 2 k)%R.
Proof. apply powerRZ_lt. lra. Qed.

Lemma pow2_add j k : powerRZ 2 (j + k) = (powerRZ 2 j * powerRZ 2 k)%R.
Proof. apply powerRZ_add. lra. Qed.

Lemma pow2_succ k : powerRZ 2 (k + 1) = (2 * powerRZ 2 k)%R.
Proof. rewrite pow2_add. change (powerRZ 2 1) with (2 * 1)%R. lra. Qed.

Lemma pow2_opp k : (powerRZ 2 (- k) * powerRZ 2 k = 1)%R.
Proof. rewrite <- pow2_add. replace (- k + k) with 0 by lia. reflexivity. Qed.

(** Scaling the numerator for a negative exponent and the denominator for
    a positive one divides by [2^e]. *)
Lemma scaled_ratio (num den e : Z) :
  0 < den ->
  (IZR (num * 2 ^ Z.max 0 (- e)) / IZR (den * 2 ^ Z.max 0 e) =
   IZR num / IZR den * powerRZ 2 (- e))%R.
Proof.
  intros Hden. rewrite !mult_IZR, !IZR_pow2 by lia.
  assert (0 < IZR den)%R as Hd by (apply IZR_lt; lia).
  pose proof (pow2_pos (Z.max 0 e)) as Hp.
  assert (powerRZ 2 (Z.max 0 (- e)) =
          powerRZ 2 (- e) * powerRZ 2 (Z.max 0 e))%R as ->.
  { rewrite <- pow2_add. f_equal. lia. }
  field. split; lra.
Qed.

Lemma scaled_den_pos den e : 0 < den -> 0 < den * 2 ^ Z.max 0 e.
Proof. intros. apply Z.mul_pos_pos; [done|]. apply Z.pow_pos_nonneg; lia. Qed.

Lemma log2_bounds n :
  0 < n -> (powerRZ 2 (Z.log2 n) <= IZR n < powerRZ 2 (Z.log2 n + 1))%R.
Proof.
  intros Hn. pose proof (Z.log2_spec n Hn) as [Hlo Hhi].
  pose proof (Z.log2_nonneg n) as Hk.
  rewrite <- !IZR_pow2 by lia. split; [apply IZR_le|apply IZR_lt]; lia.
Qed.

Lemma floor_log2_bounds num den :
  0 < num -> 0 < den ->
  (powerRZ 2 (floor_log2 num den) <= IZR num / IZR den <
   powerRZ 2 (floor_log2 num den + 1))%R.
Proof.
  intros Hn Hd. unfold floor_log2.
  pose proof (log2_bounds num Hn) as [Hn1 Hn2].
  pose proof (log2_bounds den Hd) as [Hd1 Hd2].
  set (k := Z.log2 num - Z.log2 den).
  assert (0 < IZR den)%R as Hden by (apply IZR_lt; lia).
  assert (0 < IZR num)%R as Hnum by (apply IZR_lt; lia).
  assert (powerRZ 2 (Z.log2 num) = powerRZ 2 k * powerRZ 2 (Z.log2 den))%R as Hk.
  { rewrite <- pow2_add. f_equal. lia. }
  rewrite !pow2_succ in *.
  pose proof (pow2_pos k) as Hpk. pose proof (pow2_pos (Z.log2 den)) as Hpd.
  assert (powerRZ 2 (k - 1) * 2 = powerRZ 2 k)%R as Hk1.
  { replace k with (k - 1 + 1) at 2 by lia. rewrite pow2_succ. lra. }
  replace (k - 1 + 1) with k by lia.
  assert (powerRZ 2 (k - 1) < IZR num / IZR den < 2 * powerRZ 2 k)%R as [Hlo Hhi].
  { split.
    - apply Rmult_lt_reg_r with (IZR den); [done|].
      replace (IZR num / IZR den * IZR den)%R with (IZR num) by (field; lra).
      nra.
    - apply Rmult_lt_reg_r with (IZR den); [done|].
      replace (IZR num / IZR den * IZR den)%R with (IZR num) by (field; lra).
      nra. }
  destruct (Z.ltb_spec (num * 2 ^ Z.max 0 (- k)) (den * 2 ^ Z.max 0 k)) as [Hlt|Hge].
  - split; [lra|].
    apply IZR_lt in Hlt.
    pose proof (scaled_den_pos den k Hd) as Hsd. apply IZR_lt in Hsd.
    assert (IZR (num * 2 ^ Z.max 0 (- k)) / IZR (den * 2 ^ Z.max 0 k) < 1)%R as Hq.
    { apply Rmult_lt_reg_r with (IZR (den * 2 ^ Z.max 0 k)); [done|].
      field_simplify; lra. }
    rewrite scaled_ratio in Hq by done.
    pose proof (pow2_opp k) as Hopp. pose proof (pow2_pos (- k)) as Hpn.
    apply Rmult_lt_reg_r with (powerRZ 2 (- k)); [done|]. nra.
  - split; [|lra].
    apply IZR_le in Hge.
    pose proof (scaled_den_pos den k Hd) as Hsd. apply IZR_lt in Hsd.
    assert (1 <= IZR (num * 2 ^ Z.max 0 (- k)) / IZR (den * 2 ^ Z.max 0 k))%R as Hq.
    { apply Rmult_le_reg_r with (IZR (den * 2 ^ Z.max 0 k)); [done|].
      field_simplify; lra. }
    rewrite scaled_ratio in Hq by done.
    pose proof (pow2_opp k) as Hopp. pose proof (pow2_pos (- k)) as Hpn.
    apply Rmult_le_reg_r with (powerRZ 2 (- k)); [done|]. nra.
Qed.

Lemma Rabs_le_inv x y : (Rabs x <= y)%R -> (- y <= x <= y)%R.
Proof. unfold Rabs. destruct (Rcase_abs x); lra. Qed.

Lemma round_half_even_R num den :
  0 < den ->
  (Rabs (IZR (round_half_even num den) - IZR num / IZR den) <= / 2)%R.
Proof.
  intros Hden. pose proof (round_half_even_nearest num den Hden) as H.
  assert (0 < IZR den)%R as Hd by (apply IZR_lt; lia).
  apply IZR_le in H. rewrite mult_IZR, abs_IZR, minus_IZR, mult_IZR in H.
  replace (IZR (round_half_even num den) - IZR num / IZR den)%R
    with ((IZR (round_half_even num den) * IZR den - IZR num) * / IZR den)%R
    by (field; lra).
  rewrite Rabs_mult, (Rabs_right (/ IZR den)).
  2: { apply Rle_ge, Rlt_le, Rinv_0_lt_compat, Hd. }
  apply Rmult_le_reg_r with (IZR den); [done|].
  rewrite Rmult_assoc, Rinv_l by lra. lra.
Qed.

Lemma float_value_fraction x :
  0 < (fraction x).2 /\
  (IZR (fraction x).1 / IZR (fraction x).2 = float_value x)%R.
Proof.
  unfold fraction, float_value. destruct x as [m e]. simpl.
  destruct (Z.leb_spec 0 e); simpl.
  - split; [lia|]. rewrite mult_IZR, IZR_pow2 by lia. field.
  - split; [apply Z.pow_pos_nonneg; lia|].
    rewrite IZR_pow2 by lia. pose proof (pow2_opp e) as Hopp.
    pose proof (pow2_pos (- e)) as Hpn.
    assert (powerRZ 2 e = / powerRZ 2 (- e))%R as ->; [|reflexivity].
    apply Rmult_eq_reg_l with (powerRZ 2 (- e)); [|lra].
    rewrite Rinv_r by lra. exact Hopp.
Qed.

(** The float nearest to a positive quotient is normal and within the
    relative error [2^-53] of the quotient. *)
Lemma nearest_binary64_pos num den :
  0 < num -> 0 < den ->
  2 ^ 52 <= (nearest_binary64 num den).1 < 2 ^ 53 /\
  (Rabs (float_value (nearest_binary64 num den) - IZR num / IZR den) <=
   IZR num / IZR den * powerRZ 2 (- 53))%R.
Proof.
  intros Hn Hd. unfold nearest_binary64.
  destruct (Z.eqb_spec num 0); [lia|].
  rewrite (Z.abs_eq num), (Z.sgn_pos num) by lia.
  set (e := floor_log2 num den - 52).
  set (N := num * 2 ^ Z.max 0 (- e)). set (D := den * 2 ^ Z.max 0 e).
  pose proof (scaled_den_pos den e Hd) as HD. fold D in HD.
  pose proof (round_half_even_R N D HD) as Hm.
  pose proof (scaled_ratio num den e Hd) as HQ. fold N D in HQ.
  pose proof (floor_log2_bounds num den Hn Hd) as [Hlo Hhi].
  replace (floor_log2 num den) with (e + 52) in Hlo, Hhi by (unfold e; lia).
  replace (e + 52 + 1) with (e + 53) in Hhi by lia.
  rewrite pow2_add in Hlo, Hhi.
  pose proof (pow2_opp e) as Hopp. pose proof (pow2_pos e) as Hpe.
  pose proof (pow2_pos (- e)) as Hpn.
  set (m := round_half_even N D) in *.
  set (Q := (IZR N / IZR D)%R) in *. set (q := (IZR num / IZR den)%R) in *.
  assert (powerRZ 2 52 = IZR (2 ^ 52))%R as H52 by (rewrite IZR_pow2 by lia; done).
  assert (powerRZ 2 53 = IZR (2 ^ 53))%R as H53 by (rewrite IZR_pow2 by lia; done).
  assert (powerRZ 2 (- 53) * IZR (2 ^ 53) = 1)%R as Hinv.
  { rewrite <- H53. exact (pow2_opp 53). }
  rewrite H52 in Hlo. rewrite H53 in Hhi.
  assert (IZR (2 ^ 52) <= Q < IZR (2 ^ 53))%R as [HQlo HQhi].
  { rewrite HQ. split.
    - apply Rmult_le_reg_r with (powerRZ 2 e); [done|]. nra.
    - apply Rmult_lt_reg_r with (powerRZ 2 e); [done|]. nra. }
  assert (q = Q * powerRZ 2 e)%R as Hq by (rewrite HQ; nra).
  assert (2 ^ 52 <= m <= 2 ^ 53) as Hrange.
  { apply Rabs_le_inv in Hm as [Hm1 Hm2]. split.
    - apply Z.lt_succ_r, lt_IZR. rewrite succ_IZR. lra.
    - apply Z.lt_succ_r, lt_IZR. rewrite succ_IZR. lra. }
  assert (Rabs (IZR m * powerRZ 2 e - q) <= q * powerRZ 2 (- 53))%R as Herr.
  { rewrite Hq.
    replace (IZR m * powerRZ 2 e - Q * powerRZ 2 e)%R
      with ((IZR m - Q) * powerRZ 2 e)%R by ring.
    rewrite Rabs_mult, (Rabs_right (powerRZ 2 e)) by lra.
    assert (/ 2 <= Q * powerRZ 2 (- 53))%R.
    { apply Rmult_le_reg_r with (IZR (2 ^ 53)); [apply IZR_lt; lia|].
      rewrite Rmult_assoc, Hinv.
      replace (IZR (2 ^ 53)) with (2 * IZR (2 ^ 52))%R; [lra|].
      rewrite <- mult_IZR. f_equal. }
    nra. }
  destruct (Z.eqb_spec m (2 ^ 53)) as [Hmax|Hmax]; simpl; unfold float_value; simpl.
  - split; [lia|]. rewrite pow2_succ. rewrite Hmax in Herr.
    replace (IZR (1 * 2 ^ 52) * (2 * powerRZ 2 e))%R with (IZR (2 ^ 53) * powerRZ 2 e)%R;
      [done|].
    replace (IZR (2 ^ 53)) with (2 * IZR (2 ^ 52))%R by (rewrite <- mult_IZR; f_equal).
    rewrite Z.mul_1_l. ring.
  - split; [lia|]. by rewrite Z.mul_1_l.
Qed.

Lemma fraction_pos x : 0 < x.1 -> 0 < (fraction x).1.
Proof.
  unfold fraction. destruct (Z.leb_spec 0 x.2); simpl; [|done].
  intros. apply Z.mul_pos_pos; [done|]. apply Z.pow_pos_nonneg; lia.
Qed.

Lemma float_of_Z_100 : fraction (float_of_Z 100) = (7036874417766400, 70368744177664).
Proof. reflexivity. Qed.

(** The tenths [round] keeps of the rate are an integer nearest to
    [1000 * a / t]. *)
Lemma rate_tenths a t :
  0 <= a < 2 ^ 31 ->
  2 * Z.abs (decimal_units (float_mul (py_truediv a t) (float_of_Z 100)) 1 * Z.pos t
             - 1000 * a) <= Z.pos t.
Proof.
  intros [Ha0 Ha].
  destruct (Z.eq_dec a 0) as [->|Hne]; [vm_compute; by destruct t|].
  assert (0 < a) as Hapos by lia.
  unfold py_truediv, float_mul, decimal_units. rewrite float_of_Z_100. simpl.
  destruct (nearest_binary64_pos a (Z.pos t) Hapos ltac:(lia)) as [Hq1 Hq].
  set (q := nearest_binary64 a (Z.pos t)) in *.
  destruct (float_value_fraction q) as [Hd1 Hv1].
  pose proof (fraction_pos q ltac:(lia)) as Hp1.
  set (p1 := (fraction q).1) in *. set (d1 := (fraction q).2) in *.
  destruct (nearest_binary64_pos (p1 * 7036874417766400) (d1 * 70368744177664)
              ltac:(lia) ltac:(lia)) as [_ Hx].
  set (x := nearest_binary64 (p1 * 7036874417766400) (d1 * 70368744177664)) in *.
  destruct (float_value_fraction x) as [Hd2 Hv2].
  set (p2 := (fraction x).1) in *. set (d2 := (fraction x).2) in *.
  pose proof (round_half_even_R (10 * p2) d2 Hd2) as Hu.
  change (10 ^ 1) with 10.
  set (u := round_half_even (10 * p2) d2) in *.
  assert (0 < IZR (Z.pos t))%R as Ht by (apply IZR_lt; lia).
  assert (0 < IZR a < 2147483648)%R as [HaR0 HaR].
  { split; [apply IZR_lt; lia|]. apply (IZR_lt a (2 ^ 31)). lia. }
  assert (0 < IZR d1)%R as Hd1R by (apply IZR_lt; lia).
  assert (0 < IZR d2)%R as Hd2R by (apply IZR_lt; lia).
  set (A := (IZR a / IZR (Z.pos t))%R) in *.
  assert (0 < A)%R as HA by (apply Rdiv_lt_0_compat; done).
  assert (IZR (p1 * 7036874417766400) / IZR (d1 * 70368744177664) = 100 * float_value q)%R
    as Hprod.
  { rewrite <- Hv1, !mult_IZR. field. lra. }
  rewrite Hprod in Hx.
  assert (IZR (10 * p2) / IZR d2 = 10 * float_value x)%R as Hten.
  { rewrite <- Hv2, mult_IZR. field. lra. }
  rewrite Hten in Hu.
  assert (0 < powerRZ 2 (- 53) < / 1000000000000000)%R as [He0 He].
  { split; [apply pow2_pos|].
    pose proof (pow2_opp 53) as Hopp. change (- (53))%Z with (- 53)%Z in Hopp.
    assert (powerRZ 2 53 = 9007199254740992)%R as H53
      by (rewrite <- (IZR_pow2 53) by lia; reflexivity).
    rewrite H53 in Hopp.
    apply Rmult_lt_reg_r with 9007199254740992%R; [lra|]. rewrite Hopp. lra. }
  set (eps := powerRZ 2 (- 53)) in *.
  apply Rabs_le_inv in Hq, Hx, Hu.
  assert (Rabs (IZR u * IZR (Z.pos t) - 1000 * IZR a) < IZR (Z.pos t) / 2 + / 2)%R
    as Hmain.
  { assert (IZR a = A * IZR (Z.pos t))%R as HaA by (unfold A; field; lra).
    assert (A * IZR (Z.pos t) * eps < / 400000)%R as Hsmall by (rewrite <- HaA; nra).
    apply Rabs_def1.
    - rewrite HaA. nra.
    - rewrite HaA. nra. }
  apply Z.lt_succ_r, lt_IZR.
  rewrite succ_IZR, mult_IZR, abs_IZR, minus_IZR, !mult_IZR. lra.
Qed.

Lemma float_value_25 : float_value (float_of_Z 25) = 25%R.
Proof.
  unfold float_value. change (float_of_Z 25) with (7036874417766400, -48).
  simpl fst. simpl snd.
  pose proof (pow2_opp 48) as Hopp. rewrite <- (IZR_pow2 48) in Hopp by lia.
  change (- (48))%Z with (- 48)%Z in Hopp.
  change (2 ^ 48) with 281474976710656 in Hopp.
  replace (IZR 7036874417766400) with (25 * IZR 281474976710656)%R
    by (rewrite <- mult_IZR; f_equal).
  rewrite Rmult_assoc, (Rmult_comm (IZR 281474976710656)), Hopp. lra.
Qed.

(** C8. The success rate [dashboard_summary] reports is the integer 0 when
    there is no application. Otherwise, for counters as the columns hold
    them, it is a float of one decimal place nearest to
    [accepted_applications / total_applications * 100]: the float nearest
    to [tenths / 10] for an integer [tenths] that is at most half a unit
    away from [1000 * accepted_applications / total_applications]. With 4
    applications of which 1 is accepted it is 25.0. *)
Theorem dashboard_success_rate dashboard :
  let total := total_applications dashboard in
  let accepted := accepted_applications dashboard in
  let rate := success_rate (dashboard_summary dashboard) in
  (total <= 0 -> rate = PyInt 0) /\
  (0 < total -> 0 <= accepted < 2 ^ 31 ->
   exists tenths,
     2 * Z.abs (tenths * total - 1000 * accepted) <= total /\
     rate = PyFloat (nearest_binary64 tenths 10) /\
     (Rabs (float_value (nearest_binary64 tenths 10) - IZR tenths / 10) <=
      IZR tenths / 10 * powerRZ 2 (- 53))%R) /\
  (total = 4 -> accepted = 1 ->
   rate = PyFloat (float_of_Z 25) /\ float_value (float_of_Z 25) = 25%R).
Proof.
  intros total accepted rate. subst total accepted rate.
  unfold dashboard_summary. simpl. split_and!.
  - intros Htotal. by destruct (total_applications dashboard).
  - intros Htotal Haccepted.
    destruct (total_applications dashboard) as [|t|t]; [lia| |lia].
    pose proof (rate_tenths (accepted_applications dashboard) t Haccepted) as Hnear.
    set (tenths := decimal_units _ 1) in *.
    exists tenths. split_and!; [exact Hnear|reflexivity|].
    assert (0 <= tenths) as H0 by nia.
    destruct (Z.eq_dec tenths 0) as [->|Hne].
    + unfold float_value. simpl. rewrite Rabs_right; lra.
    + destruct (nearest_binary64_pos tenths 10 ltac:(lia) ltac:(lia)) as [_ Herr].
      exact Herr.
  - intros -> ->. split; [reflexivity|apply float_value_25].
Qed.

(** The floats above are the floats of the machine: on all counters below
    40 the rate before rounding is the float the machine computes. *)
Lemma rate_agrees_with_machine :
  forallb (fun a => forallb (fun t => agrees_with_machine (Z.of_nat a) (Pos.of_nat t))
                            (seq 1 40))
          (seq 0 40) = true.
Proof. vm_compute. reflexivity. Qed.

(** * More properties of the code *)

(** ** What validation lets through *)

Lemma strip_empty : strip "" = "".
Proof. reflexivity. Qed.

(** What the hook of the cover letter returns is trimmed, and empty or
    long enough. *)
Lemma validate_cover_letter_inr value r :
  validate_cover_letter value = inr r ->
  strip r = r /\ (r = "" \/ 50 <= len r).
Proof.
  unfold validate_cover_letter.
  destruct (truthy value) eqn:Ht; simpl.
  - destruct (len (strip value) <? 50) eqn:Hlen; [done|].
    intros [= <-]. split; [apply strip_idemp|right; lia].
  - intros [= <-]. apply truthy_false in Ht as ->. split; [done|by left].
Qed.

Lemma ChoiceField_inr choices v s :
  ChoiceField choices v = inr s -> s = str v /\ s ∈ choices.
Proof.
  unfold ChoiceField. case_bool_decide; [|done]. by intros [= <-].
Qed.

(** What a field makes of a value that is there. *)
Lemma run_validation_Some {A} required partial value
    (to_internal_value : Value -> list string + A) r :
  run_validation required partial (Some value) to_internal_value = inr r ->
  value <> VNull /\ exists a, to_internal_value value = inr a /\ r = Some a.
Proof.
  destruct value; simpl; [done|..];
    (destruct (to_internal_value _) as [?|a] eqn:Hfield; [done|]);
    intros [= <-]; split; [done|eauto|done|eauto].
Qed.

Section Fields.
Context {V : URLValidator}.

(** A body that passes validation, field by field. *)
Lemma is_valid_inv db now partial data validated :
  is_valid db now partial data = inr validated ->
  with_hook (run_validation true partial (data !! "job_id") IntegerField)
            (validate_job_id db now) = inr (v_job_id validated) /\
  with_hook (run_validation false partial (data !! "cover_letter") CharField)
            validate_cover_letter = inr (v_cover_letter validated) /\
  run_validation false partial (data !! "resume_file") FileField =
    inr (v_resume_file validated) /\
  run_validation false partial (data !! "portfolio_url") URLField =
    inr (v_portfolio_url validated) /\
  run_validation false partial (data !! "status")
                 (ChoiceField JobApplication.APPLICATION_STATUS) =
    inr (v_status validated) /\
  run_validation false partial (data !! "source")
                 (ChoiceField JobApplication.SOURCE_CHOICES) =
    inr (v_source validated).
Proof.
  unfold is_valid.
  destruct (with_hook (run_validation true partial (data !! "job_id") IntegerField) _)
    as [?|?]; [intros H; discriminate H|].
  destruct (with_hook (run_validation false partial (data !! "cover_letter") CharField) _)
    as [?|?]; [intros H; discriminate H|].
  destruct (run_validation false partial (data !! "resume_file") FileField)
    as [?|?]; [intros H; discriminate H|].
  destruct (run_validation false partial (data !! "portfolio_url") URLField)
    as [?|?]; [intros H; discriminate H|].
  destruct (run_validation false partial (data !! "status") _)
    as [?|?]; [intros H; discriminate H|].
  destruct (run_validation false partial (data !! "source") _)
    as [?|?]; [intros H; discriminate H|].
  simpl. by intros [= <-].
Qed.

Lemma is_valid_status db now partial data validated :
  is_valid db now partial data = inr validated ->
  match data !! "status" with
  | None => v_status validated = None
  | Some value =>
      value <> VNull /\ v_status validated = Some (str value) /\
      str value ∈ JobApplication.APPLICATION_STATUS
  end.
Proof.
  intros (_ & _ & _ & _ & Hstatus & _)%is_valid_inv.
  destruct (data !! "status") as [value|].
  - apply run_validation_Some in Hstatus as (Hnull & s & Hfield & ->).
    apply ChoiceField_inr in Hfield as [-> Hin]. done.
  - by injection Hstatus as <-.
Qed.

Lemma is_valid_cover_letter db now partial data validated :
  is_valid db now partial data = inr validated ->
  match data !! "cover_letter" with
  | None => v_cover_letter validated = None
  | Some value =>
      value <> VNull /\
      (strip (str value) = "" \/ 50 <= len (strip (str value))) /\
      v_cover_letter validated = Some (strip (str value))
  end.
Proof.
  intros (_ & Hletter & _)%is_valid_inv.
  destruct (data !! "cover_letter") as [value|].
  - destruct (run_validation false partial (Some value) CharField)
      as [?|field] eqn:Hfield; [done|].
    apply run_validation_Some in Hfield as (Hnull & s & [= <-] & ->).
    simpl in Hletter. set (s := strip (str value)) in *.
    destruct (validate_cover_letter s) as [?|r] eqn:Hhook; [done|].
    injection Hletter as <-. revert Hhook. unfold validate_cover_letter.
    assert (strip s = s) as -> by apply strip_idemp.
    destruct (truthy s) eqn:Ht; simpl.
    + destruct (len s <? 50) eqn:Hlen; [done|]. intros [= <-].
      split_and!; [done|right; lia|done].
    + intros [= <-]. apply truthy_false in Ht. split_and!; [done|by left|done].
  - by injection Hletter as <-.
Qed.

Lemma is_valid_cover_letter_checked db now partial data validated letter :
  is_valid db now partial data = inr validated ->
  v_cover_letter validated = Some letter ->
  strip letter = letter /\ (letter = "" \/ 50 <= len letter).
Proof.
  intros Hvalid Hletter. pose proof (is_valid_cover_letter _ _ _ _ _ Hvalid) as H.
  destruct (data !! "cover_letter") as [value|].
  - destruct H as (_ & Hlen & Hv). rewrite Hv in Hletter. injection Hletter as <-.
    split; [apply strip_idemp|done].
  - congruence.
Qed.
End Fields.

(** ** The application a creation stores *)

Section Created.
Context {V : URLValidator}.

Lemma is_valid_resume_file db now partial data validated :
  is_valid db now partial data = inr validated -> v_resume_file validated = None.
Proof.
  intros (_ & _ & Hfile & _)%is_valid_inv.
  destruct (data !! "resume_file") as [value|].
  - by apply run_validation_Some in Hfile as (_ & ? & ? & _).
  - by injection Hfile as <-.
Qed.

(** The application of an answer 201 is a new row of the requesting user
    for the job the request names under [job_id], by a number or by a
    text that reads as one, stamped with the clock; its key is the key of
    no row before. Its cover letter is the trimmed text of what the
    request sends, empty or of fifty characters at least, and its status
    is the status the request names, [pending] only when it names none;
    no file comes with a JSON body. *)
Theorem create_201_row db now user data message application db' :
  create db now user data = (Http201 message application, db') ->
  db' = insert_application db application /\
  (JobApplication.pk application ∉ List.map JobApplication.pk (applications db)) /\
  JobApplication.applicant application = user /\
  (exists value,
      data !! "job_id" = Some value /\
      IntegerField value = inr (JobApplication.job_id application)) /\
  JobApplication.applied_at application = now /\
  JobApplication.updated_at application = now /\
  JobApplication.notes application = "" /\
  JobApplication.resume_file application = "" /\
  JobApplication.status application =
    match data !! "status" with
    | Some value => str value
    | None => "pending"
    end /\
  (JobApplication.status application ∈ JobApplication.APPLICATION_STATUS) /\
  JobApplication.cover_letter application =
    match data !! "cover_letter" with
    | Some value => strip (str value)
    | None => ""
    end /\
  (JobApplication.cover_letter application = "" \/
   50 <= len (JobApplication.cover_letter application)).
Proof.
  intros Hcreate.
  apply create_201_inv in Hcreate
    as (validated & job & job_id & deadline & Hvalid & _ & _ & _ & _ & _ & _ & Hid & _ & -> & ->).
  destruct (is_valid_job_id _ _ _ _ Hvalid) as (value & id & ? & Hdata & Hfield & Hid' & _).
  pose proof (is_valid_status _ _ _ _ _ Hvalid) as Hstatus.
  pose proof (is_valid_cover_letter _ _ _ _ _ Hvalid) as Hletter.
  pose proof (is_valid_resume_file _ _ _ _ _ Hvalid) as Hfile.
  assert (job_id = id) as -> by congruence.
  split_and!; try done; simpl.
  - apply next_pk_fresh.
  - by exists value.
  - by rewrite Hfile.
  - destruct (data !! "status") as [value'|].
    + by destruct Hstatus as (_ & -> & _).
    + by rewrite Hstatus.
  - destruct (data !! "status") as [value'|].
    + by destruct Hstatus as (_ & -> & ?).
    + rewrite Hstatus. simpl. apply (bool_decide_unpack _). reflexivity.
  - destruct (data !! "cover_letter") as [value'|].
    + by destruct Hletter as (_ & _ & ->).
    + by rewrite Hletter.
  - destruct (data !! "cover_letter") as [value'|].
    + by destruct Hletter as (_ & ? & ->).
    + rewrite Hletter. by left.
Qed.
End Created.

Lemma create_201_row_witness :
  exists application,
    create (V := https_only) db_listed t0 21 request_accepted =
      (Http201 "Application submitted successfully" application,
       insert_application db_listed application) /\
    JobApplication.status application = "accepted" /\
    JobApplication.applicant application = 21 /\
    JobApplication.job_id application = 1.
Proof.
  eexists. split; [reflexivity|].
  destruct (create_201_row (V := https_only) db_listed t0 21 request_accepted
              _ _ _ eq_refl) as (_ & _ & Huser & _ & _ & _ & _ & _ & Hstatus & _).
  split; [exact Hstatus|]. split; [exact Huser|reflexivity].
Defined.

(** ** Applying for a job of one's own *)

Section OwnJob.
Context {V : URLValidator}.

(** The poster of a job can apply for it. The view tests the poster of the
    job the request names under [job], and the row is stored for the job
    it names under [job_id]: a request of the poster that names the job
    of their own under [job_id] and a listed job of somebody else under
    [job] is answered 201, and the application it creates is one of the
    poster for their own job. *)
Theorem create_for_own_job db now user data validated value id own other deadline :
  is_valid db now false data = inr validated ->
  data !! "job_id" = Some value ->
  IntegerField value = inr id ->
  Job_objects_get db id = Some own ->
  Job.posted_by own = user ->
  get_job_or_404 db (data !! "job") = Some other ->
  Job.posted_by other <> user ->
  Job.status other = "published" ->
  Job.application_deadline other = Some deadline ->
  now < deadline ->
  application_exists db (Job.pk other) user = false ->
  application_exists db id user = false ->
  exists application,
    create db now user data =
      (Http201 "Application submitted successfully" application,
       insert_application db application) /\
    JobApplication.job_id application = Job.pk own /\
    JobApplication.applicant application = Job.posted_by own.
Proof.
  intros Hvalid Hid Hfield Hown Hposter Hother Hnot Hstatus Hdeadline Hnow Hnew Hfree.
  destruct (is_valid_job_id _ _ _ _ Hvalid) as (value' & id' & ? & Hid' & Hfield' & Hv & _).
  assert (id' = id) as -> by congruence.
  pose proof (Job_objects_get_pk _ _ _ Hown) as Hpk.
  exists (objects_create db now user other id validated).
  split; [|by rewrite Hpk, Hposter].
  unfold create, serializer_create. rewrite Hvalid.
  destruct (get_job_or_404_Some _ _ _ Hother) as (key & -> & _). rewrite Hother.
  destruct (Z.eqb_spec (Job.posted_by other) user); [done|].
  rewrite Hstatus, Hdeadline. simpl.
  destruct (Z.leb_spec deadline now); [lia|].
  by rewrite Hnew, Hv, Hfree.
Qed.
End OwnJob.

Lemma create_for_own_job_witness :
  exists application,
    create (V := https_only) db_two_posters t0 10 (request 3 1 letter60) =
      (Http201 "Application submitted successfully" application,
       insert_application db_two_posters application) /\
    JobApplication.job_id application = 1 /\
    JobApplication.applicant application = 10.
Proof.
  apply (create_for_own_job (V := https_only) db_two_posters t0 10
           (request 3 1 letter60)
           {| v_job_id := Some 1; v_cover_letter := Some letter60;
              v_resume_file := None; v_portfolio_url := None;
              v_status := None; v_source := None |}
           (VInt 1) 1
           (job_row 1 10 "active" (Some (t0 + day)))
           (job_row 3 11 "published" (Some (t0 + day))) (t0 + day));
    try reflexivity.
  discriminate.
Defined.

(** ** The invariants through the life of an application *)

Lemma Forall_map_preserved {A} (P : A -> Prop) (g : A -> A) (l : list A) :
  (forall x, x ∈ l -> P x -> P (g x)) -> Forall P l -> Forall P (List.map g l).
Proof.
  induction l as [|x l IH]; simpl; intros Hg Hl; [constructor|].
  apply Forall_cons in Hl as [Hx Hl]. constructor.
  - apply Hg; [by left|done].
  - apply IH; [|done]. intros y Hy. apply Hg. by right.
Qed.

Section Lifecycle.
Context {V : URLValidator}.

Lemma create_well_formed db now user data :
  well_formed db -> well_formed (create db now user data).2.
Proof.
  intros (Hpk & Hu & Hfk & Hst & Hcl).
  destruct (create_frame db now user data) as [->|(m & a & Hc)]; [done|].
  split_and!; [by apply create_primary_key|by apply create_unique_together|..];
    rewrite Hc; simpl;
    apply create_201_inv in Hc
      as (validated & job & job_id & deadline & Hvalid & _ & _ & _ & _ & _ & _
          & Hid & _ & -> & _).
  - unfold foreign_key in *. simpl. apply Forall_app. split; [exact Hfk|].
    apply Forall_singleton. simpl.
    destruct (is_valid_job_id _ _ _ _ Hvalid) as (? & id & j & _ & _ & Hid' & Hj & _).
    assert (job_id = id) as -> by congruence.
    unfold Job_objects_get in *. simpl. by rewrite Hj.
  - unfold valid_statuses in *. simpl. apply Forall_app. split; [exact Hst|].
    apply Forall_singleton. simpl.
    pose proof (is_valid_status _ _ _ _ _ Hvalid) as Hstatus.
    destruct (data !! "status") as [value|].
    + by destruct Hstatus as (_ & -> & ?).
    + rewrite Hstatus. simpl. apply (bool_decide_unpack _). reflexivity.
  - unfold cover_letters_checked in *. simpl. apply Forall_app.
    split; [exact Hcl|]. apply Forall_singleton. simpl.
    destruct (v_cover_letter validated) as [letter|] eqn:Hletter; simpl.
    + by apply (is_valid_cover_letter_checked db now false data validated).
    + split; [done|by left].
Qed.

Lemma update_well_formed db now user pk partial request_data :
  well_formed db -> well_formed (update db now user pk partial request_data).2.
Proof.
  intros (Hpk & Hu & Hfk & Hst & Hcl).
  destruct (update_keys db now user pk partial request_data Hpk) as [Hkeys Hpks].
  split_and!.
  - unfold primary_key. by rewrite Hpks.
  - unfold unique_together. by rewrite Hkeys.
  - unfold update, foreign_key in *.
    destruct (get_application db user pk) as [instance|] eqn:Hget; [|done].
    destruct (is_valid _ _ _ _) as [?|validated] eqn:Hvalid; [done|].
    apply is_valid_filtered in Hvalid as (Hid & _). simpl.
    apply get_application_Some in Hget as (Hin & _ & _).
    apply Forall_map_preserved; [|exact Hfk]. intros row _ Hrow.
    destruct (JobApplication.pk row =? JobApplication.pk instance); [|done].
    simpl. rewrite Hid. simpl. by apply (proj1 (Forall_forall _ _) Hfk).
  - unfold update, valid_statuses in *.
    destruct (get_application db user pk) as [instance|] eqn:Hget; [|done].
    destruct (is_valid _ _ _ _) as [?|validated] eqn:Hvalid; [done|].
    apply is_valid_filtered in Hvalid as (_ & _ & Hstatus & _). simpl.
    apply get_application_Some in Hget as (Hin & _ & _).
    apply Forall_map_preserved; [|exact Hst]. intros row _ Hrow.
    destruct (JobApplication.pk row =? JobApplication.pk instance); [|done].
    simpl. rewrite Hstatus. simpl. by apply (proj1 (Forall_forall _ _) Hst).
  - unfold update, cover_letters_checked in *.
    destruct (get_application db user pk) as [instance|] eqn:Hget; [|done].
    destruct (is_valid _ _ _ _) as [?|validated] eqn:Hvalid; [done|].
    simpl. apply get_application_Some in Hget as (Hin & _ & _).
    apply Forall_map_preserved; [|exact Hcl]. intros row _ Hrow.
    destruct (JobApplication.pk row =? JobApplication.pk instance); [|done].
    simpl. destruct (v_cover_letter validated) as [letter|] eqn:Hletter; simpl.
    + by apply (is_valid_cover_letter_checked _ _ _ _ _ _ Hvalid).
    + by apply (proj1 (Forall_forall _ _) Hcl).
Qed.

Lemma withdraw_well_formed db user id :
  well_formed db -> well_formed (withdraw_application db user id).2.
Proof.
  intros (Hpk & Hu & Hfk & Hst & Hcl).
  destruct (withdraw_keys db user id) as [Hkeys Hpks].
  split_and!.
  - unfold primary_key. by rewrite Hpks.
  - unfold unique_together. by rewrite Hkeys.
  - unfold withdraw_application, foreign_key in *.
    repeat case_match; try done. simpl.
    apply Forall_map_preserved; [|exact Hfk]. intros row _ Hrow.
    by case_match.
  - unfold withdraw_application, valid_statuses in *.
    repeat case_match; try done. simpl.
    apply Forall_map_preserved; [|exact Hst]. intros row _ Hrow.
    case_match; [|done]. simpl. apply (bool_decide_unpack _). reflexivity.
  - unfold withdraw_application, cover_letters_checked in *.
    repeat case_match; try done. simpl.
    apply Forall_map_preserved; [|exact Hcl]. intros row _ Hrow.
    by case_match.
Qed.

(** Creation, update and withdrawal keep the tables well formed: the
    primary key and the pair of job and applicant stay unique, every
    application refers to a job of the table, every status is one of
    [APPLICATION_STATUS], and every cover letter is trimmed and empty or
    of fifty characters at least. *)
Theorem lifecycle_well_formed db now user :
  well_formed db ->
  (forall data, well_formed (create db now user data).2) /\
  (forall pk partial request_data,
      well_formed (update db now user pk partial request_data).2) /\
  (forall id, well_formed (withdraw_application db user id).2).
Proof.
  intros Hwf. split_and!.
  - intros data. by apply create_well_formed.
  - intros pk partial request_data. by apply update_well_formed.
  - intros id. by apply withdraw_well_formed.
Qed.
End Lifecycle.

Lemma well_formed_db_listed : well_formed db_listed.
Proof.
  unfold well_formed, primary_key, unique_together, foreign_key, valid_statuses,
    cover_letters_checked. simpl.
  split_and!; try apply NoDup_singleton; apply Forall_singleton; simpl.
  - by eexists.
  - apply (bool_decide_unpack _). reflexivity.
  - split; [reflexivity|by left].
Qed.

Lemma lifecycle_well_formed_witness :
  (forall data, well_formed (create (V := https_only) db_listed t0 21 data).2) /\
  (forall pk partial request_data,
      well_formed
        (update (V := https_only) db_listed t0 21 pk partial request_data).2) /\
  (forall id, well_formed (withdraw_application db_listed 21 id).2).
Proof.
  apply (lifecycle_well_formed (V := https_only) db_listed t0 21).
  exact well_formed_db_listed.
Defined.

(** ** Withdrawal and update, composed and framed *)

(** Withdrawing again answers as the first time and changes nothing
    more. *)
Theorem withdraw_idempotent db user id :
  withdraw_application (withdraw_application db user id).2 user id =
    withdraw_application db user id.
Proof.
  unfold withdraw_application at 2 3.
  destruct (get_application db user id) as [application|] eqn:Hget.
  2: { simpl. unfold withdraw_application. by rewrite Hget. }
  case_bool_decide as Hstatus.
  { simpl. unfold withdraw_application. rewrite Hget.
    by rewrite bool_decide_eq_true_2. }
  simpl. pose proof (get_application_Some _ _ _ _ Hget) as (_ & Hpk & _).
  unfold withdraw_application. unfold get_application in *. simpl.
  rewrite Hpk. rewrite (find_map_status id user _ _ Hget). simpl.
  f_equal. f_equal. rewrite Hpk. rewrite List.map_map. apply List.map_ext.
  intros row. destruct (Z.eqb_spec (JobApplication.pk row) id) as [Hrow|Hrow]; simpl.
  - by rewrite Hrow, Z.eqb_refl.
  - by destruct (Z.eqb_spec (JobApplication.pk row) id).
Qed.

Section Isolation.
Context {V : URLValidator}.

(** No update and no withdrawal of a user changes an application of
    another user: every row of another applicant is after the request what
    it was before, at the same place of the table. *)
Theorem others_untouched db now user :
  primary_key db ->
  (forall pk partial request_data,
      Forall2 (fun row row' => JobApplication.applicant row <> user -> row' = row)
              (applications db)
              (applications (update db now user pk partial request_data).2)) /\
  (forall id,
      Forall2 (fun row row' => JobApplication.applicant row <> user -> row' = row)
              (applications db)
              (applications (withdraw_application db user id).2)).
Proof.
  intros Hpk.
  assert (forall l : list JobApplication.t,
             Forall2 (fun row row' => JobApplication.applicant row <> user -> row' = row)
                     l l) as Hsame.
  { induction l; by constructor. }
  split.
  - intros pk partial request_data. unfold update.
    destruct (get_application db user pk) as [instance|] eqn:Hget; [|apply Hsame].
    destruct (is_valid _ _ _ _) as [?|validated]; [apply Hsame|]. simpl.
    apply get_application_Some in Hget as (Hin & _ & Huser).
    apply Forall2_map_in. intros row Hrow Hother.
    destruct (Z.eqb_spec (JobApplication.pk row) (JobApplication.pk instance))
      as [Heq|]; [|done].
    rewrite (primary_key_inj db row instance Hpk Hrow Hin Heq) in Hother. done.
  - intros id. unfold withdraw_application.
    destruct (get_application db user id) as [application|] eqn:Hget; [|apply Hsame].
    case_bool_decide; [apply Hsame|]. simpl.
    apply get_application_Some in Hget as (Hin & _ & Huser).
    apply Forall2_map_in. intros row Hrow Hother.
    destruct (Z.eqb_spec (JobApplication.pk row) (JobApplication.pk application))
      as [Heq|]; [|done].
    rewrite (primary_key_inj db row application Hpk Hrow Hin Heq) in Hother. done.
Qed.
End Isolation.

Lemma others_untouched_witness :
  (forall pk partial request_data,
      Forall2 (fun row row' => JobApplication.applicant row <> 21 -> row' = row)
              (applications db_counted)
              (applications
                 (update (V := https_only) db_counted t0 21 pk partial
                    request_data).2)) /\
  (forall id,
      Forall2 (fun row row' => JobApplication.applicant row <> 21 -> row' = row)
              (applications db_counted)
              (applications (withdraw_application db_counted 21 id).2)).
Proof.
  apply (others_untouched (V := https_only) db_counted t0 21).
  unfold primary_key. simpl. apply (bool_decide_unpack _). reflexivity.
Defined.

(** ** Deadlines: [is_expired], the serializer and the list *)

(** For an active job, an expired job is closed to applications and an
    accepted [job_id] names a job that is not expired; at the very instant
    of the deadline the job is not yet expired and already closed. *)
Theorem expired_job_is_closed db now id job :
  Job_objects_get db id = Some job ->
  Job.status job = "active" ->
  (is_expired job now = true ->
   validate_job_id db now id = inl ["Application deadline has passed."]) /\
  (validate_job_id db now id = inr id -> is_expired job now = false) /\
  (Job.application_deadline job = Some now ->
   is_expired job now = false /\
   validate_job_id db now id = inl ["Application deadline has passed."]).
Proof.
  intros Hjob Hstatus. unfold is_expired, validate_job_id.
  rewrite Hjob, Hstatus. simpl.
  destruct (Job.application_deadline job) as [deadline|]; split_and!; try done.
  - intros Hexpired. destruct (Z.leb_spec deadline now); [done|lia].
  - destruct (Z.leb_spec deadline now); [done|]. intros _. lia.
  - intros [= ->]. split; [lia|]. by rewrite Z.leb_refl.
Qed.

Lemma expired_job_is_closed_witness :
  (is_expired job_open (t0 + day) = true ->
   validate_job_id db_open (t0 + day) 1 = inl ["Application deadline has passed."]) /\
  (validate_job_id db_open (t0 + day) 1 = inr 1 ->
   is_expired job_open (t0 + day) = false) /\
  (Job.application_deadline job_open = Some (t0 + day) ->
   is_expired job_open (t0 + day) = false /\
   validate_job_id db_open (t0 + day) 1 = inl ["Application deadline has passed."]).
Proof.
  apply (expired_job_is_closed db_open (t0 + day) 1 job_open); reflexivity.
Defined.

(** The list of open jobs answers no request. Its query set annotates the
    jobs under the names [application_count] and [view_count], which are
    columns of [Job], and [annotate] refuses an alias that is the name of
    a field of the model: whatever the tables and the clock,
    [get_queryset] raises [ValueError]. *)
Theorem get_queryset_raises db now :
  get_queryset db now = inl "ValueError" /\
  ("application_count" ∈ Job_field_names) /\
  ("view_count" ∈ Job_field_names) /\
  (forall alias relation,
      alias ∈ Job_field_names -> annotate_raises alias relation = Some "ValueError").
Proof.
  split_and!.
  - reflexivity.
  - apply (bool_decide_unpack _). reflexivity.
  - apply (bool_decide_unpack _). reflexivity.
  - intros alias relation Hin. unfold annotate_raises.
    by rewrite bool_decide_eq_true_2.
Qed.

(** ** [JobSerializer]: the hooks *)

(** The text a hook returned passes the hook again, unchanged: stored
    titles, descriptions and cover letters survive being sent back. *)
Theorem text_hooks_idempotent value r :
  (validate_title value = inr r -> validate_title r = inr r) /\
  (validate_description value = inr r -> validate_description r = inr r) /\
  (validate_cover_letter value = inr r -> validate_cover_letter r = inr r).
Proof.
  unfold validate_title, validate_description. split_and!.
  - destruct (len (strip value) <? 5) eqn:Hlen; [done|]. intros [= <-].
    by rewrite strip_idemp, Hlen.
  - destruct (len (strip value) <? 100) eqn:Hlen; [done|]. intros [= <-].
    by rewrite strip_idemp, Hlen.
  - intros Hhook. destruct (validate_cover_letter_inr _ _ Hhook) as [Hstrip Hlen].
    unfold validate_cover_letter. rewrite Hstrip.
    destruct Hlen as [->|Hlen]; [done|].
    destruct (len r <? 50) eqn:Hlt; [lia|]. rewrite andb_false_r.
    by destruct (truthy r).
Qed.

(** Job data pass the salary hooks and the validation across fields
    exactly when no salary is negative, the minimum does not exceed a
    maximum that is not zero, and the deadline, when there is one, is in
    the future. A maximum of zero is compared with nothing. *)
Theorem job_data_accepted now data :
  (validate_salary_min (d_salary_min data) = inr (d_salary_min data) /\
   validate_salary_max (d_salary_max data) = inr (d_salary_max data) /\
   validate now data = inr data) <->
  ((forall salary_min, d_salary_min data = Some salary_min -> 0 <= salary_min) /\
   (forall salary_max, d_salary_max data = Some salary_max -> 0 <= salary_max) /\
   (forall salary_min salary_max,
       d_salary_min data = Some salary_min ->
       d_salary_max data = Some salary_max ->
       salary_max <> 0 -> salary_min <= salary_max) /\
   (forall deadline, d_application_deadline data = Some deadline -> now < deadline)).
Proof.
  unfold validate_salary_min, validate_salary_max, validate, decimal_truthy.
  destruct (d_salary_min data) as [m|], (d_salary_max data) as [M|],
    (d_application_deadline data) as [d|]; simpl.
  all: repeat match goal with
         | |- context [?a <? ?b] => destruct (Z.ltb_spec a b)
         | |- context [?a <=? ?b] => destruct (Z.leb_spec a b)
         | |- context [?a =? ?b] => destruct (Z.eqb_spec a b)
         end; simpl.
  all: split;
    [ intros (Hmin & Hmax & Hall); try discriminate Hmin; try discriminate Hmax;
      try discriminate Hall;
      split_and!; intros; simplify_eq; lia
    | intros (Hmin & Hmax & Hboth & Hdl); split_and!; try reflexivity;
      try (specialize (Hmin _ eq_refl)); try (specialize (Hmax _ eq_refl));
      try (specialize (Hdl _ eq_refl));
      try (pose proof (Hboth _ _ eq_refl eq_refl)); exfalso; lia ].
Qed.

(** ** The slug of a new job *)

Lemma append_empty_r s : s +:+ "" = s.
Proof. induction s as [|c s IH]; simpl; [done|]. unfold String.app in *. simpl. by rewrite IH. Qed.

Lemma slug_candidate_inj base_slug : Inj (=) (=) (slug_candidate base_slug).
Proof.
  intros [|j] [|k]; simpl; [done| | |].
  - intros H. rewrite <- (append_empty_r base_slug) in H at 1.
    by apply (inj (String.app base_slug)) in H.
  - intros H. rewrite <- (append_empty_r base_slug) in H at 2.
    by apply (inj (String.app base_slug)) in H.
  - intros H. apply (inj (String.app base_slug)) in H.
    apply (inj (String.app "-")) in H. apply (inj pretty) in H. lia.
Qed.

Lemma slug_loop_spec slugs base_slug fuel : forall k,
  (forall j, (j < k)%nat -> slug_candidate base_slug j ∈ slugs) ->
  match slug_loop fuel slugs base_slug (N.of_nat (S k)) (slug_candidate base_slug k) with
  | Some slug =>
      (slug ∉ slugs) /\
      exists n, slug = slug_candidate base_slug n /\
                forall j, (j < n)%nat -> slug_candidate base_slug j ∈ slugs
  | None => forall j, (j < k + fuel)%nat -> slug_candidate base_slug j ∈ slugs
  end.
Proof.
  induction fuel as [|fuel IH]; intros k Hbelow; simpl.
  - intros j Hj. apply Hbelow. lia.
  - case_bool_decide as Hin.
    + replace (N.of_nat (S k) + 1)%N with (N.of_nat (S (S k))) by lia.
      change (base_slug +:+ "-" +:+ pretty (N.of_nat (S k)))
        with (slug_candidate base_slug (S k)).
      specialize (IH (S k)).
      destruct (slug_loop fuel slugs base_slug _ _).
      * apply IH. intros j Hj. destruct (decide (j = k)) as [->|]; [done|].
        apply Hbelow. lia.
      * intros j Hj. apply IH; [|lia]. intros i Hi.
        destruct (decide (i = k)) as [->|]; [done|]. apply Hbelow. lia.
    + split; [done|]. by exists k.
Qed.

(** The loop ends within its rounds, and the slug it gives is used by no
    job: it is the first of [base_slug], [base_slug-1], [base_slug-2], ...
    that is free. *)
Theorem unique_slug_is_free slugs base_slug :
  exists slug n,
    unique_slug slugs base_slug = Some slug /\
    (slug ∉ slugs) /\
    slug = slug_candidate base_slug n /\
    forall j, (j < n)%nat -> slug_candidate base_slug j ∈ slugs.
Proof.
  unfold unique_slug.
  pose proof (slug_loop_spec slugs base_slug (S (length slugs)) 0) as Hspec.
  change (N.of_nat 1) with 1%N in Hspec.
  change (slug_candidate base_slug 0) with base_slug in Hspec.
  destruct (slug_loop (S (length slugs)) slugs base_slug 1 base_slug) as [slug|].
  - destruct Hspec as (Hfree & n & -> & Hbelow); [intros j Hj; lia|].
    by exists (slug_candidate base_slug n), n.
  - exfalso.
    assert (forall j, (j < S (length slugs))%nat -> slug_candidate base_slug j ∈ slugs)
      as Hall by (intros j Hj; apply Hspec; [intros i Hi|]; lia).
    assert (NoDup (slug_candidate base_slug <$> seq 0 (S (length slugs)))) as Hnodup.
    { apply (@NoDup_fmap_2 _ _ (slug_candidate base_slug) (slug_candidate_inj base_slug)).
      apply NoDup_seq. }
    assert (slug_candidate base_slug <$> seq 0 (S (length slugs)) ⊆+ slugs) as Hsub.
    { apply NoDup_submseteq; [done|]. intros s (j & -> & Hj)%list_elem_of_fmap.
      apply Hall. apply elem_of_seq in Hj. lia. }
    apply submseteq_length in Hsub. rewrite length_fmap, length_seq in Hsub. lia.
Qed.

(** ** How long ago *)

Ltac div_lia := Z.div_mod_to_equations; lia.

Ltac time_cases :=
  repeat match goal with
    | |- context [?a =? ?b] => destruct (Z.eqb_spec a b)
    | |- context [?a <? ?b] => destruct (Z.ltb_spec a b)
    end.

(** The age an application shows, by the time elapsed since it was
    sent (in microseconds): "Just now" within the hour, the full hours
    within the day, "Yesterday" on the second day, the full days within
    the week, then the full weeks, "1 week ago" in the second week. A time
    of application after the clock shows a negative number of days. *)
Theorem time_since_applied_buckets now applied_at :
  let elapsed := now - applied_at in
  let result := get_time_since_applied now applied_at in
  (0 <= elapsed < 3600000000 -> result = "Just now") /\
  (3600000000 <= elapsed < 86400000000 ->
   result = pretty (elapsed / 3600000000) +:+ "h ago" /\
   1 <= elapsed / 3600000000 <= 23) /\
  (86400000000 <= elapsed < 172800000000 -> result = "Yesterday") /\
  (172800000000 <= elapsed < 604800000000 ->
   result = pretty (elapsed / 86400000000) +:+ " days ago" /\
   2 <= elapsed / 86400000000 <= 6) /\
  (604800000000 <= elapsed < 1209600000000 -> result = "1 week ago") /\
  (1209600000000 <= elapsed ->
   result = pretty (elapsed / 604800000000) +:+ " weeks ago" /\
   2 <= elapsed / 604800000000) /\
  (elapsed < 0 ->
   result = pretty (elapsed / 86400000000) +:+ " days ago" /\
   elapsed / 86400000000 < 0).
Proof.
  intros elapsed result. subst result.
  unfold get_time_since_applied, timedelta_days, timedelta_seconds, plural.
  fold elapsed. generalize elapsed. clear. intros e. split_and!; intros He.
  - time_cases; try done; div_lia.
  - split; [|div_lia]. time_cases; try div_lia.
    f_equal. f_equal. div_lia.
  - time_cases; try done; div_lia.
  - split; [|div_lia]. time_cases; try done; div_lia.
  - assert (e / 86400000000 / 7 = 1) as Hweeks by div_lia.
    rewrite Hweeks. time_cases; try done; div_lia.
  - split; [|div_lia].
    replace (e / 86400000000 / 7) with (e / 604800000000) by div_lia.
    time_cases; try done; div_lia.
  - split; [|div_lia]. time_cases; try done; div_lia.
Qed.

(** The age a job shows on its page, by the time elapsed since it was
    published: the full minutes within the hour, the full hours within
    the day, "1 day ago", the full days within the week, the full weeks
    (1 to 4) up to thirty days, then the months of thirty days; a job
    never published shows nothing. *)
Theorem time_since_posted_buckets now published :
  let elapsed := now - published in
  let result := get_time_since_posted now (Some published) in
  get_time_since_posted now None = None /\
  (0 <= elapsed < 3600000000 ->
   result = Some (pretty (elapsed / 60000000) +:+ "m ago") /\
   0 <= elapsed / 60000000 <= 59) /\
  (3600000000 <= elapsed < 86400000000 ->
   result = Some (pretty (elapsed / 3600000000) +:+ "h ago") /\
   1 <= elapsed / 3600000000 <= 23) /\
  (86400000000 <= elapsed < 172800000000 -> result = Some "1 day ago") /\
  (172800000000 <= elapsed < 604800000000 ->
   result = Some (pretty (elapsed / 86400000000) +:+ " days ago") /\
   2 <= elapsed / 86400000000 <= 6) /\
  (604800000000 <= elapsed < 2592000000000 ->
   result = Some (pretty (elapsed / 604800000000) +:+ "w ago") /\
   1 <= elapsed / 604800000000 <= 4) /\
  (2592000000000 <= elapsed ->
   result = Some (pretty (elapsed / 2592000000000) +:+ "mo ago") /\
   1 <= elapsed / 2592000000000).
Proof.
  intros elapsed result. subst result.
  unfold get_time_since_posted, timedelta_days, timedelta_seconds.
  fold elapsed. generalize elapsed. clear. intros e. split_and!; [done|..]; intros He.
  - split; [|div_lia]. time_cases; try div_lia. do 3 f_equal. div_lia.
  - split; [|div_lia]. time_cases; try div_lia. do 3 f_equal. div_lia.
  - time_cases; try done; div_lia.
  - split; [|div_lia]. time_cases; try done; div_lia.
  - split; [|div_lia].
    replace (e / 86400000000 / 7) with (e / 604800000000) by div_lia.
    time_cases; try done; div_lia.
  - split; [|div_lia].
    replace (e / 86400000000 / 30) with (e / 2592000000000) by div_lia.
    time_cases; try done; div_lia.
Qed.

(** The age a job shows in a list, by the days elapsed since it was
    published: "Today", "Yesterday", the full days within the week, the
    full weeks up to thirty days and then the months of thirty days, each
    in the singular for one. *)
Theorem list_time_since_posted_buckets now published :
  let elapsed := now - published in
  let result := list_time_since_posted now (Some published) in
  list_time_since_posted now None = None /\
  (0 <= elapsed < 86400000000 -> result = Some "Today") /\
  (86400000000 <= elapsed < 172800000000 -> result = Some "Yesterday") /\
  (172800000000 <= elapsed < 604800000000 ->
   result = Some (pretty (elapsed / 86400000000) +:+ " days ago") /\
   2 <= elapsed / 86400000000 <= 6) /\
  (604800000000 <= elapsed < 1209600000000 -> result = Some "1 week ago") /\
  (1209600000000 <= elapsed < 2592000000000 ->
   result = Some (pretty (elapsed / 604800000000) +:+ " weeks ago") /\
   2 <= elapsed / 604800000000 <= 4) /\
  (2592000000000 <= elapsed < 5184000000000 -> result = Some "1 month ago") /\
  (5184000000000 <= elapsed ->
   result = Some (pretty (elapsed / 2592000000000) +:+ " months ago") /\
   2 <= elapsed / 2592000000000).
Proof.
  intros elapsed result. subst result.
  unfold list_time_since_posted, timedelta_days, plural.
  fold elapsed. generalize elapsed. clear. intros e. split_and!; [done|..]; intros He.
  - time_cases; try done; div_lia.
  - time_cases; try done; div_lia.
  - split; [|div_lia]. time_cases; try done; div_lia.
  - assert (e / 86400000000 / 7 = 1) as Hweeks by div_lia.
    rewrite Hweeks. time_cases; try done; div_lia.
  - split; [|div_lia].
    replace (e / 86400000000 / 7) with (e / 604800000000) by div_lia.
    time_cases; try done; div_lia.
  - assert (e / 86400000000 / 30 = 1) as Hmonths by div_lia.
    rewrite Hmonths. time_cases; try done; div_lia.
  - split; [|div_lia].
    replace (e / 86400000000 / 30) with (e / 2592000000000) by div_lia.
    time_cases; try done; div_lia.
Qed.

(** ** The statistics of an applicant *)

Lemma count_status_other s l :
  Forall (fun a => JobApplication.status a <> s) l -> count_status s l = 0%nat.
Proof.
  unfold count_status. induction 1 as [|a l Ha _ IH]; simpl; [done|].
  destruct (String.eqb_spec (JobApplication.status a) s); [done|exact IH].
Qed.

Lemma counts_below_length l :
  (count_status "pending" l + count_status "reviewed" l +
   count_status "interview" l + count_status "accepted" l +
   count_status "rejected" l <= length l)%nat.
Proof.
  unfold count_status. induction l as [|a l IH]; simpl; [lia|].
  destruct (String.eqb_spec (JobApplication.status a) "pending") as [Heq|];
    [rewrite Heq; simpl; lia|].
  destruct (String.eqb_spec (JobApplication.status a) "reviewed") as [Heq|];
    [rewrite Heq; simpl; lia|].
  destruct (String.eqb_spec (JobApplication.status a) "interview") as [Heq|];
    [rewrite Heq; simpl; lia|].
  destruct (String.eqb_spec (JobApplication.status a) "accepted") as [Heq|];
    [rewrite Heq; simpl; lia|].
  destruct (String.eqb_spec (JobApplication.status a) "rejected"); simpl; lia.
Qed.

Lemma applications_of_elem db user a :
  a ∈ applications_of db user <->
  a ∈ applications db /\ JobApplication.applicant a = user.
Proof.
  unfold applications_of. rewrite !list_elem_of_In, filter_In, Z.eqb_eq. done.
Qed.

(** The five counts of [application_stats] never exceed the total, and
    the count [interview] is zero as long as every status is one of
    [APPLICATION_STATUS], which has no status of that name. *)
Theorem application_stats_counts db user :
  let stats := (application_stats db user).1 in
  (ApplicationStats.pending stats + ApplicationStats.reviewed stats +
   ApplicationStats.interview stats + ApplicationStats.accepted stats +
   ApplicationStats.rejected stats <= ApplicationStats.total_applications stats)%nat /\
  (valid_statuses db -> ApplicationStats.interview stats = 0%nat).
Proof.
  simpl. split; [apply counts_below_length|].
  intros Hvalid. apply count_status_other. apply Forall_forall.
  intros a [Ha _]%applications_of_elem.
  pose proof (proj1 (Forall_forall _ _) Hvalid a Ha) as Hstatus. simpl in Hstatus.
  intros Heq. rewrite Heq in Hstatus.
  revert Hstatus. apply (bool_decide_eq_false_1 _). reflexivity.
Qed.

Lemma insert_by_applied_at_perm a l : insert_by_applied_at a l ≡ₚ a :: l.
Proof.
  induction l as [|x l IH]; simpl; [done|].
  destruct (JobApplication.applied_at x <? JobApplication.applied_at a); [done|].
  rewrite IH. apply Permutation_swap.
Qed.

Lemma order_by_applied_at_desc_perm l : order_by_applied_at_desc l ≡ₚ l.
Proof.
  unfold order_by_applied_at_desc. induction l as [|x l IH]; simpl; [done|].
  by rewrite insert_by_applied_at_perm, IH.
Qed.

Lemma insert_by_applied_at_sorted a l :
  StronglySorted not_older l -> StronglySorted not_older (insert_by_applied_at a l).
Proof.
  induction 1 as [|x l Hl IH Hx]; simpl.
  - repeat constructor.
  - destruct (Z.ltb_spec (JobApplication.applied_at x) (JobApplication.applied_at a)).
    + constructor; [by constructor|]. constructor; [unfold not_older; lia|].
      eapply Forall_impl; [exact Hx|]. unfold not_older. intros; simpl in *; lia.
    + constructor; [exact IH|].
      rewrite insert_by_applied_at_perm. constructor; [unfold not_older; lia|done].
Qed.

Lemma order_by_applied_at_desc_sorted l :
  StronglySorted not_older (order_by_applied_at_desc l).
Proof.
  unfold order_by_applied_at_desc. induction l; simpl; [constructor|].
  by apply insert_by_applied_at_sorted.
Qed.

(** The recent applications of [application_stats] are five applications
    of the user, or all when there are fewer, newest first, and no
    application of the user that is left out is newer than one that is
    shown. *)
Theorem recent_applications_latest db user :
  let recent := (application_stats db user).2 in
  length recent = Nat.min 5 (length (applications_of db user)) /\
  (forall a, a ∈ recent ->
             a ∈ applications db /\ JobApplication.applicant a = user) /\
  StronglySorted not_older recent /\
  (forall a b, a ∈ recent -> b ∈ applications_of db user -> b ∉ recent ->
               not_older a b).
Proof.
  simpl. set (sorted := order_by_applied_at_desc (applications_of db user)).
  assert (sorted ≡ₚ applications_of db user) as Hperm
    by apply order_by_applied_at_desc_perm.
  assert (StronglySorted not_older (take 5 sorted ++ drop 5 sorted)) as Hsorted
    by (rewrite take_drop; apply order_by_applied_at_desc_sorted).
  split_and!.
  - by rewrite length_take, Hperm.
  - intros a Ha. apply applications_of_elem. rewrite <- Hperm.
    rewrite <- (take_drop 5 sorted). apply elem_of_app. by left.
  - by apply StronglySorted_app_1_l in Hsorted.
  - intros a b Ha Hb Hout. rewrite <- Hperm, <- (take_drop 5 sorted) in Hb.
    apply elem_of_app in Hb as [Hb|Hb]; [done|].
    by apply (StronglySorted_app_1_elem_of _ _ _ _ _ Hsorted).
Qed.

(** ** Saved jobs *)

Lemma save_job_201_inv site now user data message saved_job site' :
  save_job site now user data = (Reply201 message saved_job, site') ->
  exists job,
    get_job_or_404 (site_db site) (data !! "job") = Some job /\
    List.filter (fun s => (SavedJob.user s =? user) &&
                          (SavedJob.job_id s =? Job.pk job))
                (saved_jobs site) = [] /\
    SavedJob.pk saved_job = next_saved_pk site /\
    SavedJob.user saved_job = user /\
    SavedJob.job_id saved_job = Job.pk job /\
    site' = {| site_db := site_db site;
               saved_jobs := saved_jobs site ++ [saved_job];
               job_views := job_views site |}.
Proof.
  unfold save_job. destruct (py_not (data !! "job")); [done|].
  destruct (get_prep_value (data !! "job")) as [?|key]; [done|].
  destruct (get_job_or_404 _ _) as [job|]; [|done].
  destruct (List.filter _ _) as [|? [|? ?]] eqn:Hfilter; [|done..].
  destruct (notes_of _); [|done]. intros [= <- <- <-]. by exists job.
Qed.

(** Saving a job a second time, at any time and with any notes, answers
    "Job already saved" and adds nothing. *)
Theorem save_job_twice site now user data message saved_job site' now' data' :
  save_job site now user data = (Reply201 message saved_job, site') ->
  data' !! "job" = data !! "job" ->
  save_job site' now' user data' = (Reply200 "Job already saved", site').
Proof.
  intros Hsave Hjob. pose proof Hsave as Hinv.
  apply save_job_201_inv in Hinv as (job & Hget & Hnone & _ & Huser & Hid & ->).
  unfold save_job in *. rewrite Hjob.
  destruct (py_not (data !! "job")); [done|]. simpl.
  destruct (get_job_or_404_Some _ _ _ Hget) as (id & -> & _). rewrite Hget.
  rewrite List.filter_app, Hnone. simpl.
  by rewrite Huser, Hid, !Z.eqb_refl.
Qed.

Lemma saved_pk_below_next site s :
  s ∈ saved_jobs site -> SavedJob.pk s < next_saved_pk site.
Proof.
  unfold next_saved_pk. induction 1 as [s l|s x l _ IH]; simpl; lia.
Qed.

(** Saving a job and deleting the saved job again gives the tables back
    as they were. *)
Theorem save_then_unsave site now user data message saved_job site' :
  save_job site now user data = (Reply201 message saved_job, site') ->
  unsave_job site' user (SavedJob.pk saved_job) =
    (Reply204 "Job removed from saved list", site).
Proof.
  intros (job & _ & _ & Hpk & Huser & _ & ->)%save_job_201_inv.
  unfold unsave_job. simpl.
  assert (forall l,
             (forall s, s ∈ l -> SavedJob.pk s < SavedJob.pk saved_job) ->
             List.find (fun s => (SavedJob.pk s =? SavedJob.pk saved_job) &&
                                 (SavedJob.user s =? user)) (l ++ [saved_job])
               = Some saved_job /\
             List.filter (fun s => negb (SavedJob.pk s =? SavedJob.pk saved_job))
                         (l ++ [saved_job]) = l) as Hlist.
  { induction l as [|x l IH]; intros Hbelow; simpl.
    - by rewrite Huser, !Z.eqb_refl.
    - destruct (Z.eqb_spec (SavedJob.pk x) (SavedJob.pk saved_job)) as [Heq|_].
      { specialize (Hbelow x ltac:(by left)). lia. }
      simpl. destruct IH as [-> ->]; [|done].
      intros s Hs. apply Hbelow. by right. }
  destruct (Hlist (saved_jobs site)) as [-> ->].
  { intros s Hs. rewrite Hpk. by apply saved_pk_below_next. }
  by destruct site.
Qed.

Lemma NoDup_map_filter {A B} (f : A -> B) (P : A -> bool) (l : list A) :
  NoDup (List.map f l) -> NoDup (List.map f (List.filter P l)).
Proof.
  induction l as [|x l IH]; simpl; [done|].
  intros [Hx Hl]%NoDup_cons. destruct (P x); simpl; [|by apply IH].
  apply NoDup_cons. split; [|by apply IH].
  intros Hin. apply Hx. apply list_elem_of_In, in_map_iff in Hin as (y & Hy & Hin).
  apply filter_In in Hin as [Hin _]. rewrite <- Hy.
  apply list_elem_of_In, in_map, Hin.
Qed.

Lemma filter_nil_not_elem site user job_pk :
  List.filter (fun s => (SavedJob.user s =? user) && (SavedJob.job_id s =? job_pk))
              (saved_jobs site) = [] ->
  (user, job_pk) ∉
    List.map (fun s => (SavedJob.user s, SavedJob.job_id s)) (saved_jobs site).
Proof.
  induction (saved_jobs site) as [|x l IH]; simpl; [intros _; apply not_elem_of_nil|].
  destruct (Z.eqb_spec (SavedJob.user x) user) as [Hu|Hu];
    destruct (Z.eqb_spec (SavedJob.job_id x) job_pk) as [Hj|Hj]; simpl; try done.
  all: intros Hnil; apply not_elem_of_cons; split; [congruence|by apply IH].
Qed.

(** Saving, deleting a saved job and deleting a job keep one saved job at
    most for each pair of a user and a job. *)
Theorem saved_jobs_stay_unique site now user :
  saved_unique site ->
  (forall data, saved_unique (save_job site now user data).2) /\
  (forall pk, saved_unique (unsave_job site user pk).2) /\
  (forall pk, saved_unique (destroy_job site user pk).2).
Proof.
  intros Hunique. split_and!.
  - intros data.
    destruct (save_job site now user data) as [reply site'] eqn:Hsave.
    destruct reply as [message saved_job| | | | | |];
      try (unfold save_job in Hsave; repeat case_match; simplify_eq; done).
    apply save_job_201_inv in Hsave as (job & _ & Hnone & _ & Huser & Hid & ->).
    unfold saved_unique. simpl. rewrite List.map_app. simpl.
    apply NoDup_snoc; [done|]. rewrite Huser, Hid. by apply filter_nil_not_elem.
  - intros pk. unfold unsave_job. case_match; [|done].
    unfold saved_unique. simpl. by apply NoDup_map_filter.
  - intros pk. unfold destroy_job. repeat case_match; try done.
    unfold saved_unique. simpl. by apply NoDup_map_filter.
Qed.

Lemma saved_jobs_stay_unique_witness :
  (forall data, saved_unique (save_job site_listed t0 20 data).2) /\
  (forall pk, saved_unique (unsave_job site_listed 20 pk).2) /\
  (forall pk, saved_unique (destroy_job site_listed 20 pk).2).
Proof.
  apply (saved_jobs_stay_unique site_listed t0 20).
  unfold saved_unique. simpl. apply NoDup_singleton.
Defined.

Lemma save_job_twice_witness :
  save_job site_saved (t0 + 5) 21 (<["notes" := VStr "again"]> save_request) =
    (Reply200 "Job already saved", site_saved).
Proof.
  apply (save_job_twice site_listed t0 21 save_request "Job saved successfully"
           saved_row site_saved (t0 + 5)
           (<["notes" := VStr "again"]> save_request));
    reflexivity.
Defined.

Lemma save_then_unsave_witness :
  unsave_job site_saved 21 (SavedJob.pk saved_row) =
    (Reply204 "Job removed from saved list", site_listed).
Proof.
  apply (save_then_unsave site_listed t0 21 save_request "Job saved successfully"
           saved_row site_saved).
  reflexivity.
Defined.

(** ** Deleting a job *)

Lemma find_job_filtered pk id l :
  List.find (fun j => Job.pk j =? id)
            (List.filter (fun j => negb (Job.pk j =? pk)) l) =
    if id =? pk then None else List.find (fun j => Job.pk j =? id) l.
Proof.
  induction l as [|x l IH]; simpl; [by destruct (id =? pk)|].
  destruct (Z.eqb_spec (Job.pk x) pk) as [Hx|Hx]; simpl.
  - rewrite IH. destruct (Z.eqb_spec id pk) as [|Hid]; [done|].
    destruct (Z.eqb_spec (Job.pk x) id); [congruence|done].
  - destruct (Z.eqb_spec (Job.pk x) id) as [Hid|Hid].
    + destruct (Z.eqb_spec id pk); [congruence|done].
    + exact IH.
Qed.

Lemma Forall_filter_kept {A} (P : A -> Prop) (keep : A -> bool) (l : list A) :
  (forall x, x ∈ l -> keep x = true -> P x) -> Forall P (List.filter keep l).
Proof.
  intros HP. apply Forall_forall. intros x [Hin Hkeep]%list_elem_of_In%filter_In.
  apply HP; [by apply list_elem_of_In|done].
Qed.

(** Deleting a job is refused to everyone but its poster, with 403 and
    the tables as they were. For the poster the job is gone with every
    application, saved job and view that referred to it; the other jobs
    are found as before, the rows that refer to them stay in their order,
    and no row is left that refers to a job that is not there. *)
Theorem destroy_job_cascades site user pk instance :
  Job_objects_get (site_db site) pk = Some instance ->
  (Job.posted_by instance <> user -> destroy_job site user pk = (Reply403, site)) /\
  (Job.posted_by instance = user ->
   let site' := (destroy_job site user pk).2 in
   (destroy_job site user pk).1 = Reply204 "Job deleted successfully" /\
   Job_objects_get (site_db site') pk = None /\
   (forall id, id <> pk ->
               Job_objects_get (site_db site') id = Job_objects_get (site_db site) id) /\
   applications (site_db site') =
     List.filter (fun a => negb (JobApplication.job_id a =? pk))
                 (applications (site_db site)) /\
   saved_jobs site' =
     List.filter (fun s => negb (SavedJob.job_id s =? pk)) (saved_jobs site) /\
   job_views site' =
     List.filter (fun v => negb (JobView.job_id v =? pk)) (job_views site) /\
   (references_kept site -> references_kept site')).
Proof.
  intros Hget. pose proof (Job_objects_get_pk _ _ _ Hget) as Hpk.
  unfold destroy_job, has_object_permission. rewrite Hget, Hpk. split.
  - intros Hother. by destruct (Z.eqb_spec (Job.posted_by instance) user).
  - intros ->. rewrite Z.eqb_refl. simpl.
    assert (forall id,
               Job_objects_get
                 {| jobs := List.filter (fun j => negb (Job.pk j =? pk))
                                        (jobs (site_db site));
                    applications :=
                      List.filter (fun a => negb (JobApplication.job_id a =? pk))
                                  (applications (site_db site)) |} id =
                 if id =? pk then None else Job_objects_get (site_db site) id)
      as Hfind by (intros id; apply find_job_filtered).
    split_and!; try done.
    + by rewrite Hfind, Z.eqb_refl.
    + intros id Hid. rewrite Hfind. by destruct (Z.eqb_spec id pk).
    + intros (Happs & Hsaved & Hviews). unfold references_kept, foreign_key.
      simpl. split_and!; apply Forall_filter_kept.
      * intros a Ha Hkeep. rewrite Hfind.
        destruct (JobApplication.job_id a =? pk); [done|].
        by apply (proj1 (Forall_forall _ _) Happs).
      * intros s Hs Hkeep. rewrite Hfind.
        destruct (SavedJob.job_id s =? pk); [done|].
        by apply (proj1 (Forall_forall _ _) Hsaved).
      * intros v Hv Hkeep. rewrite Hfind.
        destruct (JobView.job_id v =? pk); [done|].
        by apply (proj1 (Forall_forall _ _) Hviews).
Qed.

Lemma destroy_job_cascades_witness :
  (Job.posted_by (job_row 3 10 "published" (Some (t0 + day))) <> 10 ->
   destroy_job site_listed 10 3 = (Reply403, site_listed)) /\
  (Job.posted_by (job_row 3 10 "published" (Some (t0 + day))) = 10 ->
   let site' := (destroy_job site_listed 10 3).2 in
   (destroy_job site_listed 10 3).1 = Reply204 "Job deleted successfully" /\
   Job_objects_get (site_db site') 3 = None /\
   (forall id, id <> 3 ->
               Job_objects_get (site_db site') id =
                 Job_objects_get (site_db site_listed) id) /\
   applications (site_db site') =
     List.filter (fun a => negb (JobApplication.job_id a =? 3))
                 (applications (site_db site_listed)) /\
   saved_jobs site' =
     List.filter (fun s => negb (SavedJob.job_id s =? 3)) (saved_jobs site_listed) /\
   job_views site' =
     List.filter (fun v => negb (JobView.job_id v =? 3)) (job_views site_listed) /\
   (references_kept site_listed -> references_kept site')).
Proof.
  apply (destroy_job_cascades site_listed 10 3
           (job_row 3 10 "published" (Some (t0 + day)))).
  reflexivity.
Defined.

(** ** What a PATCH stores *)

Lemma filtered_lookup_allowed (request_data : gmap string Value) name :
  name ∈ allowed_fields ->
  filter (fun kv => kv.1 ∈ allowed_fields) request_data !! name =
    request_data !! name.
Proof.
  intros Hname. destruct (request_data !! name) as [v|] eqn:Hv.
  - by apply map_lookup_filter_Some.
  - apply map_lookup_filter_None. by left.
Qed.

Section Patch.
Context {V : URLValidator}.

Lemma is_valid_portfolio_url db now partial data validated :
  is_valid db now partial data = inr validated ->
  match data !! "portfolio_url" with
  | None => v_portfolio_url validated = None
  | Some value =>
      value <> VNull /\
      v_portfolio_url validated = Some (strip (str value)) /\
      (strip (str value) = "" \/
       (len (strip (str value)) <= 200 /\ url_valid (strip (str value)) = true))
  end.
Proof.
  intros (_ & _ & _ & Hurl & _)%is_valid_inv.
  destruct (data !! "portfolio_url") as [value|].
  - apply run_validation_Some in Hurl as (Hnull & s & Hfield & ->).
    split; [done|]. unfold URLField, CharField in Hfield.
    set (link := strip (str value)) in *.
    destruct (String.eqb_spec link "") as [Hblank|Hblank].
    + injection Hfield as <-. split; [done|by left].
    + destruct (Z.ltb_spec 200 (len link)); [done|].
      destruct (url_valid link) eqn:Hvalid; [|done]. simpl in Hfield.
      injection Hfield as <-. split; [done|]. right. split; [lia|done].
  - by injection Hurl as <-.
Qed.

(** A PATCH that is answered 200 writes the row of the application with
    the cover letter and the portfolio link of the request, each as the
    trimmed text of what the request sends, a number included, and each
    kept as it was when the request does not name it, and with the clock
    as [updated_at]; the letter stored is empty or of fifty characters at
    least, and the link is empty or a valid link of 200 characters at
    most. A null is never answered 200. *)
Theorem update_patch_row db now user pk request_data instance message application db' :
  get_application db user pk = Some instance ->
  update db now user pk true request_data =
    (Http200_application message application, db') ->
  db' = save_application db application /\
  frame instance application /\
  JobApplication.updated_at application = now /\
  match request_data !! "cover_letter" with
  | Some value =>
      value <> VNull /\
      JobApplication.cover_letter application = strip (str value) /\
      (strip (str value) = "" \/ 50 <= len (strip (str value)))
  | None =>
      JobApplication.cover_letter application = JobApplication.cover_letter instance
  end /\
  match request_data !! "portfolio_url" with
  | Some value =>
      value <> VNull /\
      JobApplication.portfolio_url application = strip (str value) /\
      (strip (str value) = "" \/
       (len (strip (str value)) <= 200 /\ url_valid (strip (str value)) = true))
  | None =>
      JobApplication.portfolio_url application =
        JobApplication.portfolio_url instance
  end.
Proof.
  intros Hget. unfold update. rewrite Hget.
  destruct (is_valid _ _ _ _) as [?|validated] eqn:Hvalid; [done|].
  intros [= <- <- <-].
  pose proof (is_valid_cover_letter _ _ _ _ _ Hvalid) as Hletter.
  pose proof (is_valid_portfolio_url _ _ _ _ _ Hvalid) as Hurl.
  rewrite filtered_lookup_allowed in Hletter, Hurl
    by (apply (bool_decide_unpack _); reflexivity).
  apply is_valid_filtered in Hvalid as (Hjob & Hfile & Hstatus & Hsource).
  split_and!; try done.
  - unfold frame. simpl. rewrite Hjob, Hfile, Hstatus, Hsource.
    split_and!; reflexivity.
  - simpl. destruct (request_data !! "cover_letter") as [value|].
    + destruct Hletter as (Hnull & Hlen & ->). done.
    + by rewrite Hletter.
  - simpl. destruct (request_data !! "portfolio_url") as [value|].
    + destruct Hurl as (Hnull & -> & Hok). done.
    + by rewrite Hurl.
Qed.
End Patch.

Lemma update_patch_row_witness :
  JobApplication.cover_letter application_patched = strip letter60 /\
  JobApplication.status application_patched = "pending" /\
  JobApplication.updated_at application_patched = t0 + 500.
Proof.
  destruct (update_patch_row (V := https_only) db_applied (t0 + 500) 20 1
              patch_request (application_row 1 1 20 "pending")
              "Application updated successfully" application_patched
              (save_application db_applied application_patched)
              eq_refl eq_refl)
    as (_ & Hframe & Hnow & Hletter & _).
  split; [exact (proj1 (proj2 Hletter))|]. split; [|exact Hnow].
  destruct Hframe as (_ & _ & _ & _ & Hstatus & _). exact Hstatus.
Defined.

(** ** The jobs of a poster *)

(** [my_jobs] answers no request either: for every user and every table
    it raises [ValueError] on the alias [application_count]. Under a free
    alias the count of the applications would be accepted, and the count
    of [views] would raise [FieldError]: the views of a job are its
    [job_views]. *)
Theorem my_jobs_raises db user :
  my_jobs db user = inl "ValueError" /\
  (forall alias, alias ∉ Job_field_names ->
                 annotate_raises alias "applications" = None /\
                 annotate_raises alias "views" = Some "FieldError").
Proof.
  split; [reflexivity|]. intros alias Hfree. unfold annotate_raises.
  rewrite (bool_decide_eq_false_2 _ Hfree). split; reflexivity.
Qed.

Lemma my_jobs_raises_witness :
  annotate_raises "applications_total" "applications" = None /\
  annotate_raises "applications_total" "views" = Some "FieldError".
Proof.
  destruct (my_jobs_raises db_counted 10) as [_ Hfree].
  apply Hfree. apply (bool_decide_eq_false_1 _). reflexivity.
Defined.
